(** * Still Grateful API: the request pipeline of [stillgrateful-api/src/index.ts]

    A shallow embedding of the Cloudflare Worker that relays an anonymous
    gratitude message: validation, rate limiting against the D1 database,
    content filtering through an external classifier, delivery by e-mail
    and the audit log.

    Conventions of the embedding.
    - A JavaScript string is a [string], one [ascii] per code unit.  The
      model covers the ASCII range: case conversion acts on the letters
      [a-z] / [A-Z], white space is the ASCII white space that [\s] and
      [trim] recognise (TAB, LF, VT, FF, CR, SPACE); every other character
      is caseless and is not white space.
    - A value produced by [JSON.parse] is a [json]; a property that is
      absent reads as [None] (JavaScript's [undefined]).
    - A timestamp is a number of whole seconds (UTC).  The code stores and
      compares timestamps in the fixed-width rendering
      [YYYY-MM-DD HH:MM:SS], on which the order of strings is the order of
      instants.
    - The database, the clock, the digest and the two outbound HTTP calls
      are collaborators of the worker; they are gathered in a [World], and
      the code runs in a state-and-exception monad over the database and
      a trace of the digests, D1 statements and outbound calls performed.
      Console output is not part of the model. *)

From Stdlib Require Import ZArith Ascii String List Bool Lia HexadecimalString.
From Stdlib.Strings Require Import Byte.
From stdpp Require Import base option gmap strings pretty.

Import ListNotations.
Local Open Scope Z_scope.
Set Warnings "-register-all".

(* ======================================================================= *)
(** * JavaScript strings                                                     *)
(* ======================================================================= *)

Definition code (c : ascii) : N := N_of_ascii c.

(** White space of [\s] and of [String.prototype.trim], ASCII range. *)
Definition isWhiteSpace (c : ascii) : bool :=
  let n := code c in
  ((9 <=? n) && (n <=? 13) || (n =? 32))%N.

Definition toUpperChar (c : ascii) : ascii :=
  let n := code c in
  if ((97 <=? n) && (n <=? 122))%N then ascii_of_N (n - 32) else c.

Definition toLowerChar (c : ascii) : ascii :=
  let n := code c in
  if ((65 <=? n) && (n <=? 90))%N then ascii_of_N (n + 32) else c.

Fixpoint mapChars (f : ascii -> ascii) (s : string) : string :=
  match s with
  | EmptyString => EmptyString
  | String c t => String (f c) (mapChars f t)
  end.

Definition toUpperCase : string -> string := mapChars toUpperChar.
Definition toLowerCase : string -> string := mapChars toLowerChar.

Fixpoint trimStart (s : string) : string :=
  match s with
  | EmptyString => EmptyString
  | String c t => if isWhiteSpace c then trimStart t else s
  end.

Fixpoint trimEnd (s : string) : string :=
  match s with
  | EmptyString => EmptyString
  | String c t =>
      match trimEnd t with
      | EmptyString => if isWhiteSpace c then EmptyString else String c EmptyString
      | t' => String c t'
      end
  end.

Definition trim (s : string) : string := trimEnd (trimStart s).

(** [hay.includes(needle)] *)
Fixpoint includes (needle hay : string) : bool :=
  String.prefix needle hay
  || match hay with
     | EmptyString => false
     | String _ t => includes needle t
     end.

(** [s.split(sep)] for a one-character separator. *)
Fixpoint split (sep : ascii) (s : string) : list string :=
  match s with
  | EmptyString => [EmptyString]
  | String c t =>
      if Ascii.eqb c sep then EmptyString :: split sep t
      else match split sep t with
           | p :: ps => String c p :: ps
           | [] => [String c EmptyString]
           end
  end.

(** [parts.join(sep)] *)
Definition join (sep : string) (parts : list string) : string :=
  String.concat sep parts.

(** A JavaScript value is falsy when it is [undefined] or the empty string
    (the only two falsy values a string-or-undefined expression takes). *)
Definition nonEmpty (s : string) : bool := negb (String.eqb s EmptyString).

(* ======================================================================= *)
(** * Regular expressions                                                    *)
(* ======================================================================= *)

(** The worker uses two regular expressions, both built from character
    classes, concatenation and [+].  [RegExp.prototype.test] on a pattern
    anchored by [^] and [$] (no flags) decides membership of the whole
    string in the language of the pattern; [matches] decides it by
    derivatives. *)
Inductive regex : Type :=
| Void
| Eps
| Class (p : ascii -> bool)
| Cat (r1 r2 : regex)
| Alt (r1 r2 : regex)
| Star (r : regex).

Definition Plus (r : regex) : regex := Cat r (Star r).

Fixpoint nullable (r : regex) : bool :=
  match r with
  | Void => false
  | Eps => true
  | Class _ => false
  | Cat r1 r2 => nullable r1 && nullable r2
  | Alt r1 r2 => nullable r1 || nullable r2
  | Star _ => true
  end.

Fixpoint deriv (c : ascii) (r : regex) : regex :=
  match r with
  | Void => Void
  | Eps => Void
  | Class p => if p c then Eps else Void
  | Cat r1 r2 =>
      if nullable r1 then Alt (Cat (deriv c r1) r2) (deriv c r2)
      else Cat (deriv c r1) r2
  | Alt r1 r2 => Alt (deriv c r1) (deriv c r2)
  | Star r1 => Cat (deriv c r1) (Star r1)
  end.

Fixpoint matches (r : regex) (s : string) : bool :=
  match s with
  | EmptyString => nullable r
  | String c t => matches (deriv c r) t
  end.

(** [text.replace(/[class]/g, f)]: every character of the class is replaced
    by what the callback returns for it. *)
Fixpoint replaceClass (p : ascii -> bool) (f : ascii -> string) (text : string) : string :=
  match text with
  | EmptyString => EmptyString
  | String c t =>
      if p c then f c +:+ replaceClass p f t
      else String c (replaceClass p f t)
  end.

(* ======================================================================= *)
(** * JSON values                                                            *)
(* ======================================================================= *)

(** The result of [JSON.parse].  Numbers matter to the worker only through
    their type and their truthiness, so a number carries an integer. *)
Inductive json : Type :=
| JNull
| JBool (b : bool)
| JNum (n : Z)
| JStr (s : string)
| JArr (items : list json)
| JObj (fields : list (string * json)).

(** [!!v] *)
Definition truthy (v : json) : bool :=
  match v with
  | JNull => false
  | JBool b => b
  | JNum n => negb (n =? 0)
  | JStr s => nonEmpty s
  | JArr _ | JObj _ => true
  end.

(** [typeof v] *)
Definition typeof (v : json) : string :=
  match v with
  | JNull | JArr _ | JObj _ => "object"
  | JBool _ => "boolean"
  | JNum _ => "number"
  | JStr _ => "string"
  end.

(** Own property of a parsed object: when a key is repeated in the source
    text, [JSON.parse] keeps the last occurrence. *)
Fixpoint ownProperty (fields : list (string * json)) (key : string) : option json :=
  match fields with
  | [] => None
  | (k, v) :: rest =>
      match ownProperty rest key with
      | Some v' => Some v'
      | None => if String.eqb k key then Some v else None
      end
  end.

(** [v.key] for a value that is neither [null] nor [undefined], and a key
    that is not a built-in property of arrays, strings, numbers or
    booleans (true of every name the worker reads: [message],
    [recipient_email], [context_tag], [sender_token], [candidates],
    [content], [parts], [text]). *)
Definition getField (v : json) (key : string) : option json :=
  match v with
  | JObj fields => ownProperty fields key
  | _ => None
  end.

(** [v[0]] for a value that is neither [null] nor [undefined]. *)
Definition getIndex0 (v : json) : option json :=
  match v with
  | JArr items => head items
  | JStr (String c _) => Some (JStr (String c EmptyString))
  | JObj fields => ownProperty fields "0"
  | _ => None
  end.

(** Optional chaining [v?.p]: [undefined] when [v] is [null] or
    [undefined], the property otherwise. *)
Definition optChain (v : option json) (get : json -> option json) : option json :=
  match v with
  | None | Some JNull => None
  | Some x => get x
  end.

(* ======================================================================= *)
(** * Constants and types of the worker ([index.ts], [types.ts])             *)
(* ======================================================================= *)

Definition MAX_MESSAGE_LENGTH : Z := 2000.
Definition MAX_SENDS_PER_WINDOW : Z := 5.
Definition RATE_LIMIT_WINDOW_HOURS : Z := 24.

Inductive ContextTag : Type :=
| former_student
| former_teacher
| old_friend
| former_colleague
| former_teammate
| family_member
| mentor
| other.

(** The string each tag is at run time. *)
Definition tagString (t : ContextTag) : string :=
  match t with
  | former_student => "former-student"
  | former_teacher => "former-teacher"
  | old_friend => "old-friend"
  | former_colleague => "former-colleague"
  | former_teammate => "former-teammate"
  | family_member => "family-member"
  | mentor => "mentor"
  | other => "other"
  end.

Definition VALID_CONTEXT_TAGS : list ContextTag :=
  [former_student; former_teacher; old_friend; former_colleague;
   former_teammate; family_member; mentor; other].

Definition CONTEXT_TAG_DISPLAY_NAMES (t : ContextTag) : string :=
  match t with
  | former_student => "A former student"
  | former_teacher => "A former teacher"
  | old_friend => "An old friend"
  | former_colleague => "A former colleague"
  | former_teammate => "A former teammate"
  | family_member => "A family member"
  | mentor => "A mentor"
  | other => "Someone from your past"
  end.

Inductive SendStatus : Type := sent | rejected | error.

Record SendRequest : Type := mkSendRequest {
  message : string;
  recipient_email : string;
  context_tag : ContextTag;
  sender_token : string
}.

Inductive ErrorCode : Type :=
| message_rejected
| rate_limited
| validation_error
| server_error.

Inductive ApiResponse : Type :=
| SuccessResponse
| ErrorResponse (code : ErrorCode) (reason : string).

(** The body of an HTTP response of the worker. *)
Inductive Body : Type :=
| BodyNull
| BodyText (text : string)
| BodyJson (data : ApiResponse).

Record Response : Type := mkResponse {
  status : Z;
  headers : list (string * string);
  body : Body
}.

(** What the handler reads of a [Request]: the method, the path of the URL
    and the outcome of [request.json()] ([None] when it rejects). *)
Record Request : Type := mkRequest {
  method : string;
  pathname : string;
  json_body : option json
}.

(* ======================================================================= *)
(** * The D1 database ([migrations/0001_initial_schema.sql])                 *)
(* ======================================================================= *)

Module rate_limits.
(** A row of [rate_limits]; the primary key [sender_hash] is the key of
    the table. *)
Record row : Type := mk { send_count : Z; window_start : Z }.
End rate_limits.

Module sends.
Record row : Type := mk {
  id : Z;
  sender_hash : string;
  recipient_domain : string;
  context_tag : string;
  status : string;
  created_at : Z
}.
End sends.

Record Db : Type := mkDb {
  rate_limits_table : gmap string rate_limits.row;
  sends_table : list sends.row
}.

(** The five prepared statements of the worker, with their bound
    parameters. *)
Inductive Stmt : Type :=
| SelectRateLimit (senderHash : string)
| InsertRateLimit (senderHash : string)
| ResetRateLimit (senderHash : string)
| IncrementRateLimit (senderHash : string)
| InsertSend (senderHash recipientDomain : string)
             (contextTag : ContextTag) (status : SendStatus).

Definition statusString (s : SendStatus) : string :=
  match s with
  | sent => "sent"
  | rejected => "rejected"
  | error => "error"
  end.

(** [id INTEGER PRIMARY KEY AUTOINCREMENT]: one more than the largest id. *)
Definition nextId (rows : list sends.row) : Z :=
  1 + fold_right (fun r acc => Z.max (sends.id r) acc) 0 rows.

(* ======================================================================= *)
(** * Collaborators, effects and the monad of the worker                     *)
(* ======================================================================= *)

(** Outcome of an outbound [fetch]: the promise rejects (network failure,
    time-out); or a response arrives with a status and a body that can be
    read, kept as the outcome of parsing it as JSON ([None] when it does
    not parse); or a response arrives with a status and a body that cannot
    be read, so that [response.text()] and [response.json()] reject. *)
Inductive FetchResult : Type :=
| NetworkError (msg : string)
| Reply (status : Z) (parsed : option json)
| Unreadable (status : Z).

(** A response that arrived.  [http_body] is [None] when reading the body
    rejects, and otherwise the outcome of parsing the body as JSON. *)
Record HttpResponse : Type := mkHttpResponse {
  http_status : Z;
  http_body : option (option json)
}.

(** [response.ok] *)
Definition ok (status : Z) : bool := (200 <=? status) && (status <=? 299).

(** The JSON body posted to the e-mail service. *)
Record Email : Type := mkEmail {
  from : string;
  to : list string;
  subject : string;
  text : string;
  html : string
}.

Record World : Type := mkWorld {
  (** the clock, read by [new Date()] and by SQLite's [datetime('now')] *)
  clock : Z;
  (** [crypto.subtle.digest('SHA-256', _)], rendered in hexadecimal *)
  sha256_hex : string -> string;
  (** the error D1 raises for a statement, [None] when it executes it *)
  d1_error : Stmt -> option string;
  (** the classifier's answer to the generation request for a message *)
  gemini : string -> FetchResult;
  (** the e-mail service's answer to a submission *)
  resend : Email -> FetchResult
}.

Inductive Event : Type :=
| Digest (input : string)
| Query (s : Stmt)
| CallGemini (msg : string)
| CallResend (mail : Email).

Record St : Type := mkSt { db : Db; trace : list Event }.

Inductive Res (A : Type) : Type :=
| Ok (a : A)
| Throw (msg : string).
Arguments Ok {A} a.
Arguments Throw {A} msg.

Definition M (A : Type) : Type := St -> Res A * St.

Definition ret {A} (a : A) : M A := fun st => (Ok a, st).

Definition bind {A B} (m : M A) (k : A -> M B) : M B :=
  fun st =>
    match m st with
    | (Ok a, st') => k a st'
    | (Throw msg, st') => (Throw msg, st')
    end.

#[global] Instance M_ret : MRet M := @ret.
#[global] Instance M_bind : MBind M := fun A B k m => bind m k.

Definition throw {A} (msg : string) : M A := fun st => (Throw msg, st).

(** [try { m } catch (e) { handler(e) }] *)
Definition try_catch {A} (m : M A) (handler : string -> M A) : M A :=
  fun st =>
    match m st with
    | (Ok a, st') => (Ok a, st')
    | (Throw msg, st') => handler msg st'
    end.

Definition emit (e : Event) : M unit :=
  fun st => (Ok tt, mkSt (db st) (trace st ++ [e])).

(** What a statement does to the database when D1 executes it. *)
Definition execute (w : World) (s : Stmt) (d : Db) : Res Db :=
  match s with
  | SelectRateLimit _ => Ok d
  | InsertRateLimit h =>
      match rate_limits_table d !! h with
      | Some _ => Throw "UNIQUE constraint failed: rate_limits.sender_hash"
      | None =>
          Ok (mkDb (<[h := rate_limits.mk 1 (clock w)]> (rate_limits_table d))
                   (sends_table d))
      end
  | ResetRateLimit h =>
      Ok (mkDb (alter (fun _ => rate_limits.mk 1 (clock w)) h (rate_limits_table d))
               (sends_table d))
  | IncrementRateLimit h =>
      Ok (mkDb (alter (fun r => rate_limits.mk (rate_limits.send_count r + 1)
                                               (rate_limits.window_start r))
                      h (rate_limits_table d))
               (sends_table d))
  | InsertSend h dom tag st =>
      Ok (mkDb (rate_limits_table d)
               (sends_table d ++
                [sends.mk (nextId (sends_table d)) h dom (tagString tag)
                          (statusString st) (clock w)]))
  end.

(** [db.prepare(..).bind(..).run()] *)
Definition d1_run (w : World) (s : Stmt) : M unit :=
  emit (Query s);;
  match d1_error w s with
  | Some msg => throw msg
  | None =>
      fun st =>
        match execute w s (db st) with
        | Ok d' => (Ok tt, mkSt d' (trace st))
        | Throw msg => (Throw msg, st)
        end
  end.

(** [db.prepare('SELECT send_count, window_start ..').bind(h).first()] *)
Definition d1_first (w : World) (senderHash : string) : M (option rate_limits.row) :=
  emit (Query (SelectRateLimit senderHash));;
  match d1_error w (SelectRateLimit senderHash) with
  | Some msg => throw msg
  | None => fun st => (Ok (rate_limits_table (db st) !! senderHash), st)
  end.

(** [fetch(gemini url, ..)] and [fetch(resend url, ..)] *)
Definition arrived (r : FetchResult) : M HttpResponse :=
  match r with
  | NetworkError e => throw e
  | Reply st parsed => mret (mkHttpResponse st (Some parsed))
  | Unreadable st => mret (mkHttpResponse st None)
  end.

Definition fetchGemini (w : World) (msg : string) : M HttpResponse :=
  emit (CallGemini msg);; arrived (gemini w msg).

Definition fetchResend (w : World) (mail : Email) : M HttpResponse :=
  emit (CallResend mail);; arrived (resend w mail).

(** [await response.text()]: the text is used for console output only. *)
Definition responseText (response : HttpResponse) : M unit :=
  match http_body response with
  | Some _ => mret tt
  | None => throw "The body of the response could not be read"
  end.

(** [await response.json()] *)
Definition responseJson (response : HttpResponse) : M json :=
  match http_body response with
  | Some (Some data) => mret data
  | Some None => throw "Unexpected token in JSON"
  | None => throw "The body of the response could not be read"
  end.

(* ======================================================================= *)
(** * Utility functions                                                      *)
(* ======================================================================= *)

Definition corsHeaders : list (string * string) :=
  [("Access-Control-Allow-Origin", "*");
   ("Access-Control-Allow-Methods", "POST, OPTIONS");
   ("Access-Control-Allow-Headers", "Content-Type")].

Definition jsonResponse (data : ApiResponse) (status : Z) : Response :=
  mkResponse status (("Content-Type", "application/json") :: corsHeaders)
             (BodyJson data).

Definition errorResponse (code : ErrorCode) (reason : string) (status : Z) : Response :=
  jsonResponse (ErrorResponse code reason) status.

Definition hashString (w : World) (str : string) : M string :=
  emit (Digest str);; mret (sha256_hex w str).

Definition extractDomain (email : string) : string :=
  let parts := split "@" email in
  if (1 <? length parts)%nat then toLowerCase (nth 1 parts EmptyString)
  else EmptyString.

(** The class [[^\s@]]. *)
Definition notSpaceNorAt (c : ascii) : bool :=
  negb (isWhiteSpace c || Ascii.eqb c "@").

(** [/^[^\s@]+@[^\s@]+\.[^\s@]+$/] *)
Definition emailRegex : regex :=
  Cat (Plus (Class notSpaceNorAt))
      (Cat (Class (Ascii.eqb "@"))
           (Cat (Plus (Class notSpaceNorAt))
                (Cat (Class (Ascii.eqb "."))
                     (Plus (Class notSpaceNorAt))))).

Definition isValidEmail (email : string) : bool := matches emailRegex email.

Definition isValidContextTag (tag : string) : bool :=
  existsb (fun t => String.eqb (tagString t) tag) VALID_CONTEXT_TAGS.

(** The cast [tag as ContextTag] of a string that passed
    [isValidContextTag]. *)
Definition asContextTag (tag : string) : ContextTag :=
  default other (find (fun t => String.eqb (tagString t) tag) VALID_CONTEXT_TAGS).

Definition dquote : ascii := ascii_of_N 34.

Definition htmlEscapes : list (ascii * string) :=
  [("&"%char, "&amp;");
   ("<"%char, "&lt;");
   (">"%char, "&gt;");
   (dquote, "&quot;");
   ("'"%char, "&#39;")].

(** [htmlEscapes[char]], as the replacement text of a callback. *)
Definition htmlEscapeOf (char : ascii) : string :=
  match find (fun e => Ascii.eqb (fst e) char) htmlEscapes with
  | Some e => snd e
  | None => "undefined"
  end.

(** The character class of the pattern of [escapeHtml]: ampersand, the two
    angle brackets, the double quote and the apostrophe. *)
Definition htmlSpecial (c : ascii) : bool :=
  existsb (Ascii.eqb c) ["&"%char; "<"%char; ">"%char; dquote; "'"%char].

Definition escapeHtml (text : string) : string :=
  replaceClass htmlSpecial htmlEscapeOf text.

(* ======================================================================= *)
(** * Core logic                                                             *)
(* ======================================================================= *)

(** The eight [return { valid: false, .. }] of [validateRequest], in the
    order of the source, and the reason each carries. *)
Inductive Failure : Type :=
| NotAnObject
| MessageRequired
| RecipientRequired
| ContextTagRequired
| SenderTokenRequired
| MessageTooLong
| InvalidEmailFormat
| InvalidContextTag.

Definition reason (f : Failure) : string :=
  match f with
  | NotAnObject => "Request body must be a JSON object."
  | MessageRequired => "Message is required and must be a non-empty string."
  | RecipientRequired => "Recipient email is required."
  | ContextTagRequired => "Context tag is required."
  | SenderTokenRequired => "Sender token is required."
  | MessageTooLong =>
      "Message must be " +:+ pretty MAX_MESSAGE_LENGTH +:+ " characters or less."
  | InvalidEmailFormat => "Invalid email address format."
  | InvalidContextTag =>
      "Invalid context tag. Must be one of: "
      +:+ join ", " (map tagString VALID_CONTEXT_TAGS) +:+ "."
  end.

Inductive Validation : Type :=
| Valid (data : SendRequest)
| Invalid (f : Failure).

(** A field passes [typeof v !== 'string' || !v.trim()] when it is a
    string whose trimmed form is not empty; the string is returned. *)
Definition requiredString (v : option json) : option string :=
  match v with
  | Some (JStr s) => if nonEmpty (trim s) then Some s else None
  | _ => None
  end.

Definition validateRequest (body : json) : Validation :=
  if negb (truthy body) || negb (String.eqb (typeof body) "object") then
    Invalid NotAnObject
  else
  let data := body in
  (* Check required fields *)
  match requiredString (getField data "message") with
  | None => Invalid MessageRequired
  | Some data_message =>
  match requiredString (getField data "recipient_email") with
  | None => Invalid RecipientRequired
  | Some data_recipient_email =>
  match requiredString (getField data "context_tag") with
  | None => Invalid ContextTagRequired
  | Some data_context_tag =>
  match requiredString (getField data "sender_token") with
  | None => Invalid SenderTokenRequired
  | Some data_sender_token =>
  (* Validate message length *)
  if MAX_MESSAGE_LENGTH <? Z.of_nat (String.length data_message) then
    Invalid MessageTooLong
  (* Validate email format *)
  else if negb (isValidEmail data_recipient_email) then
    Invalid InvalidEmailFormat
  (* Validate context tag *)
  else if negb (isValidContextTag data_context_tag) then
    Invalid InvalidContextTag
  else
    Valid {| message := trim data_message;
             recipient_email := toLowerCase (trim data_recipient_email);
             context_tag := asContextTag data_context_tag;
             sender_token := trim data_sender_token |}
  end end end end.

Definition checkRateLimit (w : World) (senderHash : string) : M bool :=
  let windowStart := clock w - RATE_LIMIT_WINDOW_HOURS * 3600 in
  record ← d1_first w senderHash;
  match record with
  | None =>
      (* No record exists, create one *)
      d1_run w (InsertRateLimit senderHash);; mret true
  | Some record =>
      (* Check if window has expired *)
      if rate_limits.window_start record <? windowStart then
        d1_run w (ResetRateLimit senderHash);; mret true
      (* Check if under limit *)
      else if rate_limits.send_count record <? MAX_SENDS_PER_WINDOW then
        d1_run w (IncrementRateLimit senderHash);; mret true
      (* Rate limited *)
      else mret false
  end.

(** [data.candidates?.[0]?.content?.parts?.[0]?.text], on a [data] that is
    not [null]: the chain is [undefined] as soon as a link is [null] or
    [undefined]. *)
Definition candidateText (data : json) : option json :=
  let candidate := optChain (getField data "candidates") getIndex0 in
  let content := optChain candidate (fun v => getField v "content") in
  let parts := optChain content (fun v => getField v "parts") in
  let part := optChain parts getIndex0 in
  optChain part (fun v => getField v "text").

(** [data.candidates?.[0]?.content?.parts?.[0]?.text?.trim().toUpperCase()]:
    reading [candidates] of [null] throws; [trim] exists on strings only,
    and calling it on another value throws. *)
Definition geminiContent (data : json) : M (option string) :=
  match data with
  | JNull => throw "Cannot read properties of null (reading 'candidates')"
  | _ =>
      match candidateText data with
      | None | Some JNull => mret None
      | Some (JStr s) => mret (Some (toUpperCase (trim s)))
      | Some _ => throw "text.trim is not a function"
      end
  end.

Definition filterMessage (w : World) (message : string) : M bool :=
  try_catch
    (response ← fetchGemini w message;
     if negb (ok (http_status response)) then
       responseText response;;
       (* On API error, ALLOW to avoid blocking legitimate messages *)
       mret true
     else
       data ← responseJson response;
       content ← geminiContent data;
       match content with
       | None => mret true
       | Some content =>
           if negb (nonEmpty content) then mret true
           (* Only reject if explicitly REJECT *)
           else mret (negb (includes "REJECT" content))
       end)
    (fun _ =>
       (* On error, ALLOW - don't block users due to API issues *)
       mret true).

Definition newline : string := String (ascii_of_N 10) EmptyString.

(** The lines of a template literal. *)
Definition lines (ls : list string) : string := join newline ls.

(** A line of a template literal cut at its double quotes. *)
Definition quoted (segments : list string) : string :=
  join (String dquote EmptyString) segments.

Definition plainTextBody (displayName message : string) : string :=
  lines
   ["From: " +:+ displayName;
    EmptyString;
    message;
    EmptyString;
    "---";
    EmptyString;
    "This message was sent anonymously through Still Grateful, a service for expressing gratitude without social pressure.";
    EmptyString;
    "No reply is expected or possible. The sender chose to remain anonymous.";
    EmptyString;
    "Learn more at stillgrateful.app"].

Definition htmlBody (displayName message : string) : string :=
  lines
   [EmptyString;
    "<!DOCTYPE html>";
    "<html>";
    "<head>";
    quoted ["  <meta charset="; "utf-8"; ">"];
    quoted ["  <meta name="; "viewport"; " content="; "width=device-width, initial-scale=1"; ">"];
    "</head>";
    quoted ["<body style="; "font-family: -apple-system, BlinkMacSystemFont, 'Segoe UI', Roboto, sans-serif; line-height: 1.6; color: #333; max-width: 600px; margin: 0 auto; padding: 20px;"; ">"];
    quoted ["  <p style="; "color: #666; margin-bottom: 8px;"; ">From: <strong>"]
      +:+ displayName +:+ "</strong></p>";
    "  ";
    quoted ["  <div style="; "background-color: #f9f9f9; border-left: 4px solid #4a9c6d; padding: 20px; margin: 20px 0; border-radius: 4px;"; ">"];
    quoted ["    <p style="; "margin: 0; white-space: pre-wrap;"; ">"]
      +:+ escapeHtml message +:+ "</p>";
    "  </div>";
    "  ";
    quoted ["  <hr style="; "border: none; border-top: 1px solid #eee; margin: 30px 0;"; ">"];
    "  ";
    quoted ["  <p style="; "color: #888; font-size: 14px;"; ">"];
    quoted ["    This message was sent anonymously through <a href="; "https://stillgrateful.app"; " style="; "color: #4a9c6d; text-decoration: none;"; ">Still Grateful</a>, a service for expressing gratitude without social pressure."];
    "  </p>";
    "  ";
    quoted ["  <p style="; "color: #888; font-size: 14px;"; ">"];
    "    No reply is expected or possible. The sender chose to remain anonymous.";
    "  </p>";
    "  ";
    quoted ["  <p style="; "color: #888; font-size: 14px;"; ">"];
    quoted ["    <a href="; "https://stillgrateful.app"; " style="; "color: #4a9c6d; text-decoration: none;"; ">Learn more at stillgrateful.app</a>"];
    "  </p>";
    "</body>";
    "</html>"].

(** The body submitted to the e-mail service. *)
Definition emailFor (recipientEmail : string) (contextTag : ContextTag)
    (message : string) : Email :=
  let displayName := CONTEXT_TAG_DISPLAY_NAMES contextTag in
  {| from := "Still Grateful <hello@stillgrateful.app>";
     to := [recipientEmail];
     subject := "Someone is grateful for you";
     text := plainTextBody displayName message;
     html := htmlBody displayName message |}.

Definition sendEmail (w : World) (recipientEmail : string)
    (contextTag : ContextTag) (message : string) : M bool :=
  try_catch
    (response ← fetchResend w (emailFor recipientEmail contextTag message);
     responseText response;;
     if negb (ok (http_status response)) then mret false else mret true)
    (fun _ => mret false).

Definition logSend (w : World) (senderHash recipientDomain : string)
    (contextTag : ContextTag) (status : SendStatus) : M unit :=
  try_catch
    (d1_run w (InsertSend senderHash recipientDomain contextTag status))
    (fun _ =>
       (* Don't throw - logging failure shouldn't break the request *)
       mret tt).

(* ======================================================================= *)
(** * Main handler                                                           *)
(* ======================================================================= *)

Definition preflightResponse : Response :=
  mkResponse 204 (corsHeaders ++ [("Access-Control-Max-Age", "86400")]) BodyNull.

Definition notFoundResponse : Response :=
  mkResponse 404 [] (BodyText "Not Found").

(** Steps 2 to 6 of [fetch], on the data of a request that passed
    validation. *)
Definition process (w : World) (data : SendRequest) : M Response :=
  senderHash ← hashString w (sender_token data);
  let recipientDomain := extractDomain (recipient_email data) in
  (* Step 2: Check rate limit *)
  withinRateLimit ← checkRateLimit w senderHash;
  if negb withinRateLimit then
    logSend w senderHash recipientDomain (context_tag data) rejected;;
    mret (errorResponse rate_limited
            "You've sent too many messages today. Please try again tomorrow."
            429)
  else
  (* Step 3: Filter message with LLM *)
  isAllowed ← filterMessage w (message data);
  if negb isAllowed then
    logSend w senderHash recipientDomain (context_tag data) rejected;;
    mret (errorResponse message_rejected
            "This message doesn't appear to be expressing gratitude."
            400)
  else
  (* Step 4: Send email *)
  emailSent ← sendEmail w (recipient_email data) (context_tag data) (message data);
  if negb emailSent then
    logSend w senderHash recipientDomain (context_tag data) error;;
    mret (errorResponse server_error
            "Failed to send email. Please try again later."
            500)
  else
  (* Step 5: Log successful send *)
  logSend w senderHash recipientDomain (context_tag data) sent;;
  (* Step 6: Return success *)
  mret (jsonResponse SuccessResponse 200).

(** Steps 1 to 6 of [fetch], on a body that parsed as JSON. *)
Definition pipeline (w : World) (body : json) : M Response :=
  (* Step 1: Validate input *)
  match validateRequest body with
  | Invalid f => mret (errorResponse validation_error (reason f) 400)
  | Valid data => process w data
  end.

Definition fetch (w : World) (request : Request) : M Response :=
  try_catch
    ((* Handle CORS preflight *)
     if String.eqb (method request) "OPTIONS" then mret preflightResponse
     (* Only handle POST /send *)
     else if negb (String.eqb (method request) "POST")
             || negb (String.eqb (pathname request) "/send")
     then mret notFoundResponse
     else
       (* Parse request body *)
       match json_body request with
       | None => mret (errorResponse validation_error "Invalid JSON in request body." 400)
       | Some body => pipeline w body
       end)
    (fun msg =>
       mret (errorResponse server_error
               ("An unexpected error occurred: " +:+ msg) 500)).

(* ======================================================================= *)
(** * Notions used to state the properties                                   *)
(* ======================================================================= *)

(** ** Strings and languages *)

(** Every character of [s] satisfies [p]. *)
Fixpoint allChars (p : ascii -> bool) (s : string) : bool :=
  match s with
  | EmptyString => true
  | String c t => p c && allChars p t
  end.

Definition notAt (c : ascii) : bool := negb (Ascii.eqb c "@").

(** The language of a regular expression. *)
Inductive in_lang : regex -> string -> Prop :=
| in_Eps : in_lang Eps EmptyString
| in_Class p c : p c = true -> in_lang (Class p) (String c EmptyString)
| in_Cat r1 r2 s1 s2 : in_lang r1 s1 -> in_lang r2 s2 -> in_lang (Cat r1 r2) (s1 +:+ s2)
| in_Alt_l r1 r2 s : in_lang r1 s -> in_lang (Alt r1 r2) s
| in_Alt_r r1 r2 s : in_lang r2 s -> in_lang (Alt r1 r2) s
| in_Star_nil r : in_lang (Star r) EmptyString
| in_Star_cons r s1 s2 : in_lang r s1 -> in_lang (Star r) s2 -> in_lang (Star r) (s1 +:+ s2).




(** The entity that stands for a character in HTML text. *)
Definition entityOf (c : ascii) : string :=
  if Ascii.eqb c "&" then "&amp;"
  else if Ascii.eqb c "<" then "&lt;"
  else if Ascii.eqb c ">" then "&gt;"
  else if Ascii.eqb c dquote then "&quot;"
  else if Ascii.eqb c "'" then "&#39;"
  else String c EmptyString.

(** The characters that open or close a tag or an attribute value. *)
Definition isMarkup (c : ascii) : bool :=
  Ascii.eqb c "<" || Ascii.eqb c ">" || Ascii.eqb c dquote || Ascii.eqb c "'".

(** ** Observations on a run of the worker *)

(** The statements sent to D1, in order. *)
Definition queries (tr : list Event) : list Stmt :=
  omap (fun e => match e with Query s => Some s | _ => None end) tr.

(** The inputs given to the digest, in order. *)
Definition digests (tr : list Event) : list string :=
  omap (fun e => match e with Digest s => Some s | _ => None end) tr.

(** The inserts into the audit log, in order. *)
Definition auditWrites (tr : list Event) : list Stmt :=
  List.filter (fun s => match s with InsertSend _ _ _ _ => true | _ => false end)
              (queries tr).

(** The row an insert into the audit log appends to [rows]. *)
Definition auditRow (w : World) (rows : list sends.row)
    (senderHash recipientDomain : string) (contextTag : ContextTag)
    (status : SendStatus) : sends.row :=
  sends.mk (nextId rows) senderHash recipientDomain (tagString contextTag)
           (statusString status) (clock w).

(** The value [filterMessage] resolves to, as a function of the answer of
    the classifier. *)
Definition filterVerdict (r : FetchResult) : bool :=
  match r with
  | Reply status (Some data) =>
      if ok status then
        match candidateText data with
        | Some (JStr s) => negb (includes "REJECT" (toUpperCase (trim s)))
        | _ => true
        end
      else true
  | Reply _ None => true
  | NetworkError _ => true
  | Unreadable _ => true
  end.

(** The value [sendEmail] resolves to, as a function of the answer of the
    e-mail service. *)
Definition delivered (r : FetchResult) : bool :=
  match r with
  | Reply status _ => ok status
  | NetworkError _ => false
  | Unreadable _ => false
  end.

(** The audit status that goes with a response of the pipeline: [None] for
    the responses that carry no outcome of a send attempt. *)
Definition auditStatusFor (r : Response) : option SendStatus :=
  match body r with
  | BodyJson SuccessResponse => Some sent
  | BodyJson (ErrorResponse rate_limited _) => Some rejected
  | BodyJson (ErrorResponse message_rejected _) => Some rejected
  | BodyJson (ErrorResponse server_error reason) =>
      if String.eqb reason "Failed to send email. Please try again later."
      then Some error else None
  | _ => None
  end.

(** The request is a [POST /send] whose body parsed and passed validation. *)
Definition validated (request : Request) : option SendRequest :=
  if String.eqb (method request) "POST" && String.eqb (pathname request) "/send" then
    match json_body request with
    | Some body =>
        match validateRequest body with
        | Valid data => Some data
        | Invalid _ => None
        end
    | None => None
    end
  else None.

(** ** The validator as the specification words it *)

(** The five checks of the specification of the validator. *)
Inductive Check : Type :=
| PayloadIsObject
| MessageOk
| RecipientOk
| TagOk
| TokenOk.

(** The order in which the specification lists them. *)
Definition specifiedOrder : list Check :=
  [PayloadIsObject; MessageOk; RecipientOk; TagOk; TokenOk].

(** The field is a string that satisfies [p]. *)
Definition stringField (body : json) (key : string) (p : string -> bool) : bool :=
  match getField body key with
  | Some (JStr s) => p s
  | _ => false
  end.

Definition notBlank (s : string) : bool := nonEmpty (trim s).

Definition withinLength (s : string) : bool :=
  Z.of_nat (String.length s) <=? MAX_MESSAGE_LENGTH.

Definition holds (c : Check) (body : json) : bool :=
  match c with
  | PayloadIsObject => truthy body && String.eqb (typeof body) "object"
  | MessageOk => stringField body "message" (fun s => notBlank s && withinLength s)
  | RecipientOk => stringField body "recipient_email" isValidEmail
  | TagOk => stringField body "context_tag" isValidContextTag
  | TokenOk => stringField body "sender_token" notBlank
  end.

(** Fail-fast evaluation in the specified order. *)
Definition firstViolated (body : json) : option Check :=
  find (fun c => negb (holds c body)) specifiedOrder.

(** The check of the specification that a failure of the code reports. *)
Definition checkOf (f : Failure) : Check :=
  match f with
  | NotAnObject => PayloadIsObject
  | MessageRequired | MessageTooLong => MessageOk
  | RecipientRequired | InvalidEmailFormat => RecipientOk
  | ContextTagRequired | InvalidContextTag => TagOk
  | SenderTokenRequired => TokenOk
  end.

(** The tests of [validateRequest] in the order of the source, each with
    the failure it returns. *)
Definition sourceOrder : list (Failure * (json -> bool)) :=
  [(NotAnObject, holds PayloadIsObject);
   (MessageRequired, fun b => stringField b "message" notBlank);
   (RecipientRequired, fun b => stringField b "recipient_email" notBlank);
   (ContextTagRequired, fun b => stringField b "context_tag" notBlank);
   (SenderTokenRequired, fun b => stringField b "sender_token" notBlank);
   (MessageTooLong, fun b => stringField b "message" withinLength);
   (InvalidEmailFormat, fun b => stringField b "recipient_email" isValidEmail);
   (InvalidContextTag, fun b => stringField b "context_tag" isValidContextTag)].

(** Fail-fast evaluation in the order of the source. *)
Definition firstFailure (body : json) : option Failure :=
  fst <$> find (fun t => negb (snd t body)) sourceOrder.

(** ** Sample collaborators, requests and states *)

(** The body of an answer of the classifier that carries [text]. *)
Definition geminiSays (text : string) : json :=
  JObj [("candidates",
         JArr [JObj [("content",
                      JObj [("parts", JArr [JObj [("text", JStr text)]])])]])].

(** A world in which every collaborator works: D1 executes every statement,
    the classifier allows, the e-mail service accepts.  The digest is a
    stand-in that tags its input. *)
Definition sampleWorld : World :=
  {| clock := 1767225600;
     sha256_hex := fun s => "sha256:" +:+ s;
     d1_error := fun _ => None;
     gemini := fun _ => Reply 200 (Some (geminiSays "ALLOW"));
     resend := fun _ => Reply 200 (Some (JObj [("id", JStr "email-id-123")])) |}.

(** The same world, with a classifier that answers [text]. *)
Definition worldAnswering (text : string) : World :=
  {| clock := clock sampleWorld;
     sha256_hex := sha256_hex sampleWorld;
     d1_error := d1_error sampleWorld;
     gemini := fun _ => Reply 200 (Some (geminiSays text));
     resend := resend sampleWorld |}.

(** The same world, in which D1 refuses the inserts into the audit log. *)
Definition auditDownWorld : World :=
  {| clock := clock sampleWorld;
     sha256_hex := sha256_hex sampleWorld;
     d1_error := fun s =>
       match s with
       | InsertSend _ _ _ _ => Some "D1_ERROR: no such table: sends"
       | _ => None
       end;
     gemini := gemini sampleWorld;
     resend := resend sampleWorld |}.

Definition sampleBody (message : string) : json :=
  JObj [("message", JStr message);
        ("recipient_email", JStr "recipient@example.com");
        ("context_tag", JStr "mentor");
        ("sender_token", JStr "unique-anonymous-token-123")].

Definition postSend (body : json) : Request :=
  mkRequest "POST" "/send" (Some body).

Definition emptyState : St := mkSt (mkDb ∅ []) [].

(** A state in which a sender has used its five sends an hour ago. *)
Definition cappedState : St :=
  mkSt (mkDb {[ "sha256:unique-anonymous-token-123" :=
                  rate_limits.mk 5 (1767225600 - 3600) ]} [])
       [].

(** ** Notions for the further properties *)

(** The payload a client would send for a request. *)
Definition bodyOf (data : SendRequest) : json :=
  JObj [("message", JStr (message data));
        ("recipient_email", JStr (recipient_email data));
        ("context_tag", JStr (tagString (context_tag data)));
        ("sender_token", JStr (sender_token data))].

(** A string that is empty or begins with a character that is not white
    space. *)
Definition solidHead (s : string) : Prop :=
  match s with
  | EmptyString => True
  | String c _ => isWhiteSpace c = false
  end.

(** D1 executes every statement. *)
Definition healthy (w : World) : Prop := forall s, d1_error w s = None.

(** Successive calls of the rate limiter for one sender, one world (one
    instant) per call. *)
Fixpoint checkRateLimitEach (worlds : list World) (senderHash : string) (st : St)
    : list (Res bool) * St :=
  match worlds with
  | [] => ([], st)
  | w :: rest =>
      let (r, st1) := checkRateLimit w senderHash st in
      let (rs, st2) := checkRateLimitEach rest senderHash st1 in
      (r :: rs, st2)
  end.

(** The messages submitted to the classifier, and the e-mails submitted to
    the e-mail service, in order. *)
Definition geminiCalls (tr : list Event) : list string :=
  omap (fun e => match e with CallGemini m => Some m | _ => None end) tr.

Definition resendCalls (tr : list Event) : list Email :=
  omap (fun e => match e with CallResend mail => Some mail | _ => None end) tr.

(** The response contract of the worker: the status that goes with each
    body, and the headers of the JSON responses. *)
Definition inContract (r : Response) : Prop :=
  match body r with
  | BodyNull =>
      status r = 204 /\ In ("Access-Control-Allow-Origin", "*") (headers r)
  | BodyText t => status r = 404 /\ t = "Not Found"
  | BodyJson data =>
      In ("Content-Type", "application/json") (headers r)
      /\ In ("Access-Control-Allow-Origin", "*") (headers r)
      /\ status r = match data with
                    | SuccessResponse => 200
                    | ErrorResponse validation_error _ => 400
                    | ErrorResponse message_rejected _ => 400
                    | ErrorResponse rate_limited _ => 429
                    | ErrorResponse server_error _ => 500
                    end
  end.

(** A world with other answers of D1 to the inserts into the audit log. *)
Definition withAuditErrors (w : World) (f : Stmt -> option string) : World :=
  {| clock := clock w;
     sha256_hex := sha256_hex w;
     d1_error := fun s =>
       match s with
       | InsertSend _ _ _ _ => f s
       | _ => d1_error w s
       end;
     gemini := gemini w;
     resend := resend w |}.

(** A world with another classifier and another e-mail service. *)
Definition withServices (w : World) (g : string -> FetchResult)
    (r : Email -> FetchResult) : World :=
  {| clock := clock w;
     sha256_hex := sha256_hex w;
     d1_error := d1_error w;
     gemini := g;
     resend := r |}.

(** The sample world, in which D1 refuses the statements on [rate_limits]. *)
Definition rateLimitDownWorld : World :=
  {| clock := clock sampleWorld;
     sha256_hex := sha256_hex sampleWorld;
     d1_error := fun s =>
       match s with
       | InsertSend _ _ _ _ => None
       | _ => Some "D1_ERROR: no such table: rate_limits"
       end;
     gemini := gemini sampleWorld;
     resend := resend sampleWorld |}.

(** [n.toString(16)] for a non-negative integer. *)
Definition toString16 (n : N) : string :=
  HexadecimalString.NilZero.string_of_uint (N.to_hex_uint n).

(** [s.padStart(targetLength, pad)] for a pad of one character. *)
Definition padStart (targetLength : nat) (pad : ascii) (s : string) : string :=
  string_of_list_ascii (repeat pad (targetLength - String.length s)) +:+ s.

(** [hashArray.map((b) => b.toString(16).padStart(2, '0')).join('')], the
    rendering of the digest in [hashString]; [sha256_hex] stands for this
    rendering of the bytes of the digest. *)
Definition hexOfBytes (hashArray : list Byte.byte) : string :=
  join EmptyString
       (map (fun b => padStart 2 "0" (toString16 (Strings.Byte.to_N b))) hashArray).

(** The value of a lower-case hexadecimal digit. *)
Definition hexValue (c : ascii) : option N :=
  let n := code c in
  if ((48 <=? n) && (n <=? 57))%N then Some (n - 48)%N
  else if ((97 <=? n) && (n <=? 102))%N then Some (n - 87)%N
  else None.

(** Reading bytes back from their rendering, two digits per byte. *)
Fixpoint bytesOfHex (s : string) : option (list Byte.byte) :=
  match s with
  | EmptyString => Some []
  | String a (String b t) =>
      match hexValue a, hexValue b, bytesOfHex t with
      | Some x, Some y, Some l =>
          option_map (fun byte => byte :: l) (Strings.Byte.of_N (16 * x + y))
      | _, _, _ => None
      end
  | String _ EmptyString => None
  end.

Definition isHexDigit (c : ascii) : bool :=
  match hexValue c with
  | Some _ => true
  | None => false
  end.

(** Successive requests to the handler, each in its own world (at its own
    instant). *)
Fixpoint fetchEach (requests : list (World * Request)) (st : St)
    : list (Res Response) * St :=
  match requests with
  | [] => ([], st)
  | (w, request) :: rest =>
      let (r, st1) := fetch w request st in
      let (rs, st2) := fetchEach rest st1 in
      (r :: rs, st2)
  end.

(** The request is a validated [POST /send] of the sender whose token has
    the digest [senderHash]. *)
Definition fromSender (senderHash : string) (wr : World * Request) : Prop :=
  exists data,
    validated (snd wr) = Some data
    /\ sha256_hex (fst wr) (sender_token data) = senderHash.

(** A payload with the four fields. *)
Definition payload (message recipient tag token : string) : json :=
  JObj [("message", JStr message);
        ("recipient_email", JStr recipient);
        ("context_tag", JStr tag);
        ("sender_token", JStr token)].

(** The sample world, some seconds later. *)
Definition sampleWorldAfter (seconds : Z) : World :=
  {| clock := clock sampleWorld + seconds;
     sha256_hex := sha256_hex sampleWorld;
     d1_error := d1_error sampleWorld;
     gemini := gemini sampleWorld;
     resend := resend sampleWorld |}.

(** Six requests of one sender within a day, with different messages,
    recipients and tags; the classifier rejects the second, the delivery
    of the third fails. *)
Definition sixRequests : list (World * Request) :=
  [(sampleWorld,
    postSend (payload "Thank you for everything." "recipient@example.com"
                      "mentor" "token-1"));
   (withServices (sampleWorldAfter 60)
                 (fun _ => Reply 200 (Some (geminiSays "REJECT")))
                 (resend sampleWorld),
    postSend (payload "You again." "teacher@example.org" "former-teacher" "token-1"));
   (withServices (sampleWorldAfter 3600) (gemini sampleWorld)
                 (fun _ => Unreadable 200),
    postSend (payload "You changed my life." "friend@example.net" "old-friend"
                      "token-1"));
   (sampleWorldAfter 7200,
    postSend (payload "Thanks, coach." "coach@example.com" "former-teammate" " token-1 "));
   (sampleWorldAfter 80000,
    postSend (payload "Thanks, mum." "mum@example.com" "family-member" "token-1"));
   (sampleWorldAfter 86400,
    postSend (payload "One more." "other@example.com" "other" "token-1"))].

(** The handler answered 429. *)
Definition isRateLimited (r : Res Response) : bool :=
  match r with
  | Ok response => status response =? 429
  | Throw _ => false
  end.

(* ======================================================================= *)
(** * Properties                                                             *)
(* ======================================================================= *)

#[local] Arguments String.append !s1 s2 / : simpl nomatch.

(* ======================================================================= *)
(** * Strings                                                                *)
(* ======================================================================= *)

Lemma append_nil_r (s : string) : s +:+ EmptyString = s.
Proof. induction s as [|c s IH]; simpl; [reflexivity | now rewrite IH]. Qed.

Lemma append_assoc (s1 s2 s3 : string) : (s1 +:+ s2) +:+ s3 = s1 +:+ (s2 +:+ s3).
Proof. induction s1 as [|c s1 IH]; simpl; [reflexivity | now rewrite IH]. Qed.

Lemma append_eq_nil (s1 s2 : string) :
  s1 +:+ s2 = EmptyString -> s1 = EmptyString /\ s2 = EmptyString.
Proof. destruct s1; simpl; [auto | discriminate]. Qed.

Lemma allChars_app p (s1 s2 : string) :
  allChars p (s1 +:+ s2) = allChars p s1 && allChars p s2.
Proof.
  induction s1 as [|c s1 IH]; simpl; [reflexivity|].
  rewrite IH. now rewrite andb_assoc.
Qed.

Lemma allChars_impl (p q : ascii -> bool) (s : string) :
  (forall c, p c = true -> q c = true) -> allChars p s = true -> allChars q s = true.
Proof.
  intros Hpq. induction s as [|c s IH]; simpl; [auto|].
  intros [Hc Hs]%andb_true_iff. rewrite (Hpq _ Hc). simpl. auto.
Qed.

(* ======================================================================= *)
(** * The derivative matcher decides the language                            *)
(* ======================================================================= *)

Lemma nullable_sound r : nullable r = true -> in_lang r EmptyString.
Proof.
  induction r; simpl; intros H; try discriminate.
  - constructor.
  - apply andb_true_iff in H as [H1 H2].
    change EmptyString with (EmptyString +:+ EmptyString). constructor; auto.
  - apply orb_true_iff in H as [H|H]; [apply in_Alt_l | apply in_Alt_r]; auto.
  - constructor.
Qed.

Lemma nullable_complete r s : in_lang r s -> s = EmptyString -> nullable r = true.
Proof.
  induction 1; simpl; intros Hs; try reflexivity; try discriminate.
  - apply append_eq_nil in Hs as [-> ->]. rewrite IHin_lang1, IHin_lang2; auto.
  - rewrite IHin_lang; auto.
  - rewrite IHin_lang; auto using orb_true_r.
Qed.

Lemma deriv_sound c r : forall s, in_lang (deriv c r) s -> in_lang r (String c s).
Proof.
  induction r; simpl; intros s H.
  - inversion H.
  - inversion H.
  - destruct (p c) eqn:Hp; inversion H; subst. now constructor.
  - assert (Hcat : forall s, in_lang (Cat (deriv c r1) r2) s -> in_lang (Cat r1 r2) (String c s)).
    { intros s' H'. inversion H'; subst.
      change (String c (s1 +:+ s2)) with (String c s1 +:+ s2). constructor; auto. }
    destruct (nullable r1) eqn:Hn; [|auto].
    inversion H; subst; [auto|].
    change (String c s) with (EmptyString +:+ String c s).
    constructor; auto using nullable_sound.
  - inversion H; subst; [apply in_Alt_l | apply in_Alt_r]; auto.
  - inversion H; subst.
    change (String c (s1 +:+ s2)) with (String c s1 +:+ s2). constructor; auto.
Qed.

Lemma deriv_complete r s' :
  in_lang r s' -> forall c s, s' = String c s -> in_lang (deriv c r) s.
Proof.
  induction 1; intros c0 s0 Hs; simpl.
  - discriminate.
  - injection Hs as -> <-. rewrite H. constructor.
  - destruct s1 as [|c1 s1]; simpl in Hs.
    + assert (Hn : nullable r1 = true) by (eapply nullable_complete; eauto).
      rewrite Hn. apply in_Alt_r. eauto.
    + injection Hs as -> <-.
      assert (Hc : in_lang (Cat (deriv c0 r1) r2) (s1 +:+ s2)) by (constructor; eauto).
      destruct (nullable r1); [apply in_Alt_l|]; exact Hc.
  - apply in_Alt_l; eauto.
  - apply in_Alt_r; eauto.
  - discriminate.
  - destruct s1 as [|c1 s1]; simpl in Hs.
    + eapply (IHin_lang2 c0 s0) in Hs. exact Hs.
    + injection Hs as -> <-. constructor; eauto.
Qed.

Lemma matches_spec r s : matches r s = true <-> in_lang r s.
Proof.
  revert r. induction s as [|c s IH]; intros r; simpl.
  - split; [apply nullable_sound | intros H; eapply nullable_complete; eauto].
  - rewrite IH. split; [apply deriv_sound | intros H; eapply deriv_complete; eauto].
Qed.

Lemma in_Star_Class p s r :
  in_lang r s -> r = Star (Class p) -> allChars p s = true.
Proof.
  induction 1; intros Hr; try discriminate; [reflexivity|].
  injection Hr as ->. rewrite allChars_app, IHin_lang2 by reflexivity.
  inversion H; subst. simpl.
  match goal with Hp : p _ = true |- _ => now rewrite Hp end.
Qed.

Lemma in_Plus_Class p s :
  in_lang (Plus (Class p)) s -> s <> EmptyString /\ allChars p s = true.
Proof.
  intros H. inversion H as [| |r1 r2 s1 s2 H1 H2| | | |]; subst.
  inversion H1 as [|p' c Hc| | | | |]; subst. simpl. split; [discriminate|].
  rewrite Hc. simpl. eapply in_Star_Class; eauto.
Qed.

Lemma in_Class_inv p s : in_lang (Class p) s -> exists c, s = String c EmptyString /\ p c = true.
Proof. intros H. inversion H; subst. eauto. Qed.

Lemma in_Cat_inv r1 r2 s :
  in_lang (Cat r1 r2) s -> exists s1 s2, s = s1 +:+ s2 /\ in_lang r1 s1 /\ in_lang r2 s2.
Proof. intros H. inversion H; subst. eauto. Qed.

(** The shape of the strings [isValidEmail] accepts. *)
Lemma isValidEmail_shape email :
  isValidEmail email = true ->
  exists loc d1 d2,
    email = loc +:+ "@" +:+ d1 +:+ "." +:+ d2
    /\ loc <> EmptyString /\ d1 <> EmptyString /\ d2 <> EmptyString
    /\ allChars notSpaceNorAt loc = true
    /\ allChars notSpaceNorAt d1 = true
    /\ allChars notSpaceNorAt d2 = true.
Proof.
  unfold isValidEmail, emailRegex. rewrite matches_spec. intros H.
  apply in_Cat_inv in H as (loc & r1 & -> & Hloc & H).
  apply in_Cat_inv in H as (at_ & r2 & -> & Hat & H).
  apply in_Cat_inv in H as (d1 & r3 & -> & Hd1 & H).
  apply in_Cat_inv in H as (dot & d2 & -> & Hdot & Hd2).
  apply in_Class_inv in Hat as (c1 & -> & Hc1%Ascii.eqb_eq).
  apply in_Class_inv in Hdot as (c2 & -> & Hc2%Ascii.eqb_eq).
  subst. apply in_Plus_Class in Hloc as [? ?], Hd1 as [? ?], Hd2 as [? ?].
  exists loc, d1, d2. simpl. auto 10.
Qed.


(* ======================================================================= *)
(** * Splitting at a separator, case conversion                              *)
(* ======================================================================= *)

Lemma split_without sep s :
  allChars (fun c => negb (Ascii.eqb c sep)) s = true -> split sep s = [s].
Proof.
  induction s as [|c s IH]; simpl; [reflexivity|].
  intros [Hc Hs]%andb_true_iff. apply negb_true_iff in Hc. rewrite Hc.
  now rewrite (IH Hs).
Qed.

Lemma split_at_first sep s rest :
  allChars (fun c => negb (Ascii.eqb c sep)) s = true ->
  split sep (s +:+ String sep rest) = s :: split sep rest.
Proof.
  induction s as [|c s IH]; simpl.
  - intros _. now rewrite Ascii.eqb_refl.
  - intros [Hc Hs]%andb_true_iff. apply negb_true_iff in Hc. rewrite Hc.
    now rewrite (IH Hs).
Qed.

Lemma toLowerChar_idem c : toLowerChar (toLowerChar c) = toLowerChar c.
Proof. destruct c as [[] [] [] [] [] [] [] []]; reflexivity. Qed.

Lemma toLowerCase_idem s : toLowerCase (toLowerCase s) = toLowerCase s.
Proof.
  induction s as [|c s IH]; simpl; [reflexivity|].
  unfold toLowerCase in *. simpl. now rewrite toLowerChar_idem, IH.
Qed.

Lemma mapChars_nonempty f s : s <> EmptyString -> mapChars f s <> EmptyString.
Proof. destruct s; simpl; [congruence | discriminate]. Qed.

Lemma notSpaceNorAt_notAt c : notSpaceNorAt c = true -> notAt c = true.
Proof.
  unfold notSpaceNorAt, notAt. rewrite !negb_true_iff, orb_false_iff. tauto.
Qed.

(** C9. For every string that [isValidEmail] accepts, [extractDomain]
    returns a non-empty, lower-cased domain: the string has exactly one
    at-sign, with non-empty text on both sides, so that splitting at the
    at-sign gives the two sides and the domain is the lower-cased second
    one. *)
Theorem extractDomain_of_valid_email (email : string) :
  isValidEmail email = true ->
  exists loc dom,
    email = loc +:+ "@" +:+ dom
    /\ loc <> EmptyString /\ dom <> EmptyString
    /\ allChars notAt loc = true /\ allChars notAt dom = true
    /\ split "@" email = [loc; dom]
    /\ extractDomain email = toLowerCase dom
    /\ extractDomain email <> EmptyString
    /\ toLowerCase (extractDomain email) = extractDomain email.
Proof.
  intros (loc & d1 & d2 & -> & Hloc & Hd1 & Hd2 & Hcl & Hc1 & Hc2)%isValidEmail_shape.
  set (dom := d1 +:+ "." +:+ d2).
  assert (Hl : allChars notAt loc = true)
    by (eapply allChars_impl; [apply notSpaceNorAt_notAt | exact Hcl]).
  assert (Hd : allChars notAt dom = true).
  { unfold dom. rewrite !allChars_app. simpl.
    rewrite (allChars_impl _ _ _ notSpaceNorAt_notAt Hc1).
    now rewrite (allChars_impl _ _ _ notSpaceNorAt_notAt Hc2). }
  assert (Hdom : dom <> EmptyString).
  { unfold dom. destruct d1; [congruence | discriminate]. }
  assert (Hsplit : split "@" (loc +:+ "@" +:+ dom) = [loc; dom]).
  { change ("@" +:+ dom) with (String "@" dom).
    rewrite split_at_first by exact Hl. now rewrite split_without by exact Hd. }
  assert (Hext : extractDomain (loc +:+ "@" +:+ dom) = toLowerCase dom).
  { unfold extractDomain. now rewrite Hsplit. }
  exists loc, dom. rewrite Hext.
  repeat split; auto.
  - now apply mapChars_nonempty.
  - apply toLowerCase_idem.
Qed.

Lemma extractDomain_of_valid_email_witness :
  isValidEmail "Recipient@Example.COM" = true
  /\ exists loc dom,
       "Recipient@Example.COM" = loc +:+ "@" +:+ dom
       /\ loc <> EmptyString /\ dom <> EmptyString
       /\ allChars notAt loc = true /\ allChars notAt dom = true
       /\ split "@" "Recipient@Example.COM" = [loc; dom]
       /\ extractDomain "Recipient@Example.COM" = toLowerCase dom
       /\ extractDomain "Recipient@Example.COM" <> EmptyString
       /\ toLowerCase (extractDomain "Recipient@Example.COM")
          = extractDomain "Recipient@Example.COM".
Proof.
  split; [reflexivity|].
  apply (extractDomain_of_valid_email "Recipient@Example.COM"). reflexivity.
Defined.

(* ======================================================================= *)
(** * The bodies of the e-mail                                               *)
(* ======================================================================= *)

Lemma escapeHtml_cons c t : escapeHtml (String c t) = entityOf c +:+ escapeHtml t.
Proof. destruct c as [[] [] [] [] [] [] [] []]; reflexivity. Qed.

Lemma escapeHtml_no_markup text :
  allChars (fun c => negb (isMarkup c)) (escapeHtml text) = true.
Proof.
  induction text as [|c t IH]; [reflexivity|].
  rewrite escapeHtml_cons, allChars_app, IH, andb_true_r.
  destruct c as [[] [] [] [] [] [] [] []]; reflexivity.
Qed.

(** C8. The HTML body is a fixed text around the escaped message, the
    plain-text body a fixed text around the message as it is; escaping
    replaces each occurrence of the five characters by its entity, keeps
    every other character, and leaves no angle bracket or quote in its
    result. *)
Theorem email_bodies_embed_message (recipientEmail : string) (contextTag : ContextTag) :
  exists htmlBefore htmlAfter textBefore textAfter,
    forall message,
      html (emailFor recipientEmail contextTag message)
        = htmlBefore +:+ escapeHtml message +:+ htmlAfter
      /\ text (emailFor recipientEmail contextTag message)
        = textBefore +:+ message +:+ textAfter
      /\ escapeHtml message
        = String.concat EmptyString
            (map entityOf (list_ascii_of_string message))
      /\ allChars (fun c => negb (isMarkup c)) (escapeHtml message) = true.
Proof.
  pose (whole := htmlBody (CONTEXT_TAG_DISPLAY_NAMES contextTag) EmptyString).
  pose (n := match String.index 0 "pre-wrap;" whole with
             | Some k => (k + 11)%nat
             | None => 0%nat
             end).
  pose (plain := plainTextBody (CONTEXT_TAG_DISPLAY_NAMES contextTag) EmptyString).
  pose (k := (String.length ("From: " +:+ CONTEXT_TAG_DISPLAY_NAMES contextTag) + 2)%nat).
  exists (substring 0 n whole), (substring n (String.length whole - n) whole),
         (substring 0 k plain), (substring k (String.length plain - k) plain).
  intros message. repeat split.
  - destruct contextTag; vm_compute substring;
      unfold emailFor, htmlBody, lines, quoted, join; simpl;
      rewrite append_assoc; reflexivity.
  - destruct contextTag; vm_compute substring;
      unfold emailFor, plainTextBody, lines, join; simpl; reflexivity.
  - induction message as [|c t IH]; [reflexivity|].
    rewrite escapeHtml_cons, IH. simpl. destruct t; simpl; [|reflexivity].
    now rewrite append_nil_r.
  - apply escapeHtml_no_markup.
Qed.

(* ======================================================================= *)
(** * Running the monad                                                      *)
(* ======================================================================= *)

Ltac unfold_monad :=
  unfold mbind, M_bind, mret, M_ret, bind, ret, throw, emit, try_catch in *.

Lemma hashString_run w str st :
  hashString w str st = (Ok (sha256_hex w str), mkSt (db st) (trace st ++ [Digest str])).
Proof. reflexivity. Qed.

Lemma filterMessage_run w message st :
  filterMessage w message st
  = (Ok (filterVerdict (gemini w message)),
     mkSt (db st) (trace st ++ [CallGemini message])).
Proof.
  unfold filterMessage, fetchGemini, arrived, responseText, responseJson,
    geminiContent, filterVerdict.
  unfold_monad. simpl.
  destruct (gemini w message) as [e|status [data|]|status]; simpl; try reflexivity;
    destruct (ok status); simpl; try reflexivity.
  destruct data; simpl; try reflexivity;
    match goal with
    | |- context [candidateText ?d] => destruct (candidateText d) as [[]|]
    end; simpl; try reflexivity;
    match goal with
    | |- context [nonEmpty ?c] => unfold nonEmpty; destruct (String.eqb_spec c EmptyString) as [->|]
    end; reflexivity.
Qed.

Lemma sendEmail_run w recipientEmail contextTag message st :
  sendEmail w recipientEmail contextTag message st
  = (Ok (delivered (resend w (emailFor recipientEmail contextTag message))),
     mkSt (db st)
          (trace st ++ [CallResend (emailFor recipientEmail contextTag message)])).
Proof.
  unfold sendEmail, fetchResend, arrived, responseText, delivered. unfold_monad. simpl.
  destruct (resend w _) as [e|status parsed|status]; simpl; try reflexivity.
  destruct (ok status); reflexivity.
Qed.

Lemma filterVerdict_false r :
  filterVerdict r = false <->
  exists status data text,
    r = Reply status (Some data)
    /\ ok status = true
    /\ candidateText data = Some (JStr text)
    /\ includes "REJECT" (toUpperCase (trim text)) = true.
Proof.
  split.
  - destruct r as [e|status [data|]|status]; simpl; try discriminate.
    destruct (ok status) eqn:Hok; try discriminate.
    destruct (candidateText data) as [[| | |text| |]|] eqn:Ht; try discriminate.
    intros H%negb_false_iff. exists status, data, text. auto.
  - intros (status & data & text & -> & Hok & Ht & Hinc). simpl.
    now rewrite Hok, Ht, Hinc.
Qed.

(** C2. [filterMessage] always resolves, and resolves to allow when the
    call to the classifier throws, answers with an error status, answers
    with a body that does not parse or cannot be read, or answers with a
    body in which no text is found; it resolves to deny exactly when the
    call succeeds and the text found, trimmed and upper-cased, contains the
    marker REJECT. *)
Theorem filterMessage_fail_open (w : World) (message : string) (st : St) :
  exists allowed,
    filterMessage w message st
      = (Ok allowed, mkSt (db st) (trace st ++ [CallGemini message]))
    /\ (forall e, gemini w message = NetworkError e -> allowed = true)
    /\ (forall status parsed,
          gemini w message = Reply status parsed -> ok status = false ->
          allowed = true)
    /\ (forall status, gemini w message = Reply status None -> allowed = true)
    /\ (forall status, gemini w message = Unreadable status -> allowed = true)
    /\ (forall status data,
          gemini w message = Reply status (Some data) ->
          (forall text, candidateText data <> Some (JStr text)) ->
          allowed = true)
    /\ (allowed = false <->
        exists status data text,
          gemini w message = Reply status (Some data)
          /\ ok status = true
          /\ candidateText data = Some (JStr text)
          /\ includes "REJECT" (toUpperCase (trim text)) = true).
Proof.
  exists (filterVerdict (gemini w message)).
  split; [apply filterMessage_run|].
  repeat split.
  - intros e ->. reflexivity.
  - intros status parsed -> Hok. simpl. rewrite Hok. now destruct parsed.
  - intros status ->. reflexivity.
  - intros status ->. reflexivity.
  - intros status data -> Hno. simpl. destruct (ok status); [|reflexivity].
    destruct (candidateText data) as [[| | |text| |]|] eqn:Ht; try reflexivity.
    now destruct (Hno text).
  - apply filterVerdict_false.
  - apply filterVerdict_false.
Qed.

Lemma filterMessage_fail_open_witness :
  exists allowed,
    filterMessage (worldAnswering "REJECT") "Thank you" emptyState
      = (Ok allowed, mkSt (db emptyState) [CallGemini "Thank you"])
    /\ allowed = false.
Proof.
  destruct (filterMessage_fail_open (worldAnswering "REJECT") "Thank you" emptyState)
    as (allowed & Hrun & _ & _ & _ & _ & _ & Hdeny).
  exists allowed. split; [exact Hrun|].
  apply Hdeny. exists 200, (geminiSays "REJECT"), "REJECT".
  repeat split; reflexivity.
Defined.

(* ======================================================================= *)
(** * The marker of rejection, in any letter case                            *)
(* ======================================================================= *)







Lemma trimEnd_cons c t :
  trimEnd (String c t)
  = if String.eqb (trimEnd t) EmptyString && isWhiteSpace c then EmptyString
    else String c (trimEnd t).
Proof.
  simpl. destruct (trimEnd t); simpl; [|reflexivity]. now destruct (isWhiteSpace c).
Qed.

Section AnyCase.
Variables lower upper : string.
Hypothesis lower_solid : allChars (fun c => negb (isWhiteSpace c)) lower = true.
Hypothesis upper_solid : allChars (fun c => negb (isWhiteSpace c)) upper = true.
Hypothesis lower_nonempty : lower <> EmptyString.




End AnyCase.



(* ======================================================================= *)
(** * The rate limiter                                                       *)
(* ======================================================================= *)

Lemma alter_present (f : rate_limits.row -> rate_limits.row) (h : string)
    (table : gmap string rate_limits.row) (r : rate_limits.row) :
  table !! h = Some r -> alter f h table = <[h := f r]> table.
Proof.
  intros Hr. apply map_eq. intros k.
  destruct (decide (h = k)) as [->|Hne].
  - now rewrite lookup_alter_eq, lookup_insert_eq, Hr.
  - now rewrite lookup_alter_ne, lookup_insert_ne.
Qed.

(** C3. The rate limiter is a fixed-window counter with a window of 24
    hours and a cap of 5.  When D1 executes the statements it is sent:
    with no record for the identifier, a record with count 1 and window
    start now is created and the request is allowed; with a record whose
    window start is older than now minus 24 hours, the record is reset to
    count 1 and window start now and the request is allowed; with a record
    whose count is below 5, the count is incremented and the request is
    allowed; otherwise the request is denied. *)
Theorem checkRateLimit_fixed_window (w : World) (senderHash : string) (st : St) :
  (forall s, d1_error w s = None) ->
  let table := rate_limits_table (db st) in
  let now := clock w in
  let outcome (allowed : bool) (table' : gmap string rate_limits.row)
              (writes : list Stmt) : Res bool * St :=
    (Ok allowed,
     mkSt (mkDb table' (sends_table (db st)))
          (trace st ++ Query (SelectRateLimit senderHash) :: map Query writes)) in
  checkRateLimit w senderHash st =
  match table !! senderHash with
  | None =>
      outcome true (<[senderHash := rate_limits.mk 1 now]> table)
              [InsertRateLimit senderHash]
  | Some record =>
      if rate_limits.window_start record <? now - 24 * 3600 then
        outcome true (<[senderHash := rate_limits.mk 1 now]> table)
                [ResetRateLimit senderHash]
      else if rate_limits.send_count record <? 5 then
        outcome true
                (<[senderHash := rate_limits.mk (rate_limits.send_count record + 1)
                                                (rate_limits.window_start record)]> table)
                [IncrementRateLimit senderHash]
      else outcome false table []
  end.
Proof.
  intros Hup table now outcome. subst outcome table now.
  unfold checkRateLimit, d1_first, d1_run. unfold_monad.
  rewrite !Hup. cbn [db trace].
  destruct st as [[table sends] tr]. cbn [db trace rate_limits_table sends_table].
  destruct (table !! senderHash) as [record|] eqn:Hrec.
  - change (RATE_LIMIT_WINDOW_HOURS * 3600) with (24 * 3600).
    change MAX_SENDS_PER_WINDOW with 5.
    destruct (rate_limits.window_start record <? clock w - 24 * 3600).
    + cbn. rewrite (alter_present _ _ _ _ Hrec), <- app_assoc. reflexivity.
    + destruct (rate_limits.send_count record <? 5).
      * cbn. rewrite (alter_present _ _ _ _ Hrec), <- app_assoc. reflexivity.
      * reflexivity.
  - cbn. rewrite Hrec, <- app_assoc. reflexivity.
Qed.

(** C7. When the record of the identifier is in its current window (its
    window start is not older than now minus 24 hours) and its count is at
    or above 5, the rate limiter denies and sends D1 nothing but the
    [SELECT]: the database, and with it the count and the window start of
    the record, is what it was before the call. *)
Theorem checkRateLimit_deny_no_mutation (w : World) (senderHash : string) (st : St)
    (record : rate_limits.row) :
  d1_error w (SelectRateLimit senderHash) = None ->
  rate_limits_table (db st) !! senderHash = Some record ->
  clock w - 24 * 3600 <= rate_limits.window_start record ->
  5 <= rate_limits.send_count record ->
  checkRateLimit w senderHash st
    = (Ok false, mkSt (db st) (trace st ++ [Query (SelectRateLimit senderHash)]))
  /\ db (snd (checkRateLimit w senderHash st)) = db st
  /\ rate_limits_table (db (snd (checkRateLimit w senderHash st))) !! senderHash
     = Some record.
Proof.
  intros Hsel Hrec Hwin Hcap.
  assert (Hrun : checkRateLimit w senderHash st
                 = (Ok false, mkSt (db st) (trace st ++ [Query (SelectRateLimit senderHash)]))).
  { unfold checkRateLimit, d1_first. unfold_monad. rewrite Hsel. cbn [db trace].
    rewrite Hrec.
    change (RATE_LIMIT_WINDOW_HOURS * 3600) with (24 * 3600).
    change MAX_SENDS_PER_WINDOW with 5.
    destruct (Z.ltb_spec (rate_limits.window_start record) (clock w - 24 * 3600)); [lia|].
    destruct (Z.ltb_spec (rate_limits.send_count record) 5); [lia|].
    reflexivity. }
  rewrite Hrun. auto.
Qed.

Lemma checkRateLimit_fixed_window_witness :
  (forall s, d1_error sampleWorld s = None)
  /\ checkRateLimit sampleWorld "sha256:unique-anonymous-token-123" emptyState
     = (Ok true,
        mkSt (mkDb {[ "sha256:unique-anonymous-token-123" :=
                        rate_limits.mk 1 1767225600 ]} [])
             [Query (SelectRateLimit "sha256:unique-anonymous-token-123");
              Query (InsertRateLimit "sha256:unique-anonymous-token-123")]).
Proof.
  split; [reflexivity|].
  apply (checkRateLimit_fixed_window sampleWorld
           "sha256:unique-anonymous-token-123" emptyState).
  reflexivity.
Defined.

Lemma checkRateLimit_deny_no_mutation_witness :
  d1_error sampleWorld (SelectRateLimit "sha256:unique-anonymous-token-123") = None
  /\ rate_limits_table (db cappedState) !! "sha256:unique-anonymous-token-123"
     = Some (rate_limits.mk 5 (1767225600 - 3600))
  /\ clock sampleWorld - 24 * 3600 <= 1767225600 - 3600
  /\ 5 <= 5
  /\ checkRateLimit sampleWorld "sha256:unique-anonymous-token-123" cappedState
     = (Ok false,
        mkSt (db cappedState)
             [Query (SelectRateLimit "sha256:unique-anonymous-token-123")]).
Proof.
  split; [reflexivity|]. split; [reflexivity|].
  split; [vm_compute; discriminate|]. split; [lia|].
  apply (checkRateLimit_deny_no_mutation sampleWorld
           "sha256:unique-anonymous-token-123" cappedState
           (rate_limits.mk 5 (1767225600 - 3600))).
  - reflexivity.
  - reflexivity.
  - vm_compute; discriminate.
  - simpl; lia.
Defined.


(** Sanity checks of the filter on the answers the tests of the worker
    use, and on an answer that mentions neither word. *)
Example filterMessage_ALLOW :
  fst (filterMessage (worldAnswering "ALLOW") "Thank you" emptyState) = Ok true.
Proof. reflexivity. Qed.

Example filterMessage_REJECT :
  fst (filterMessage (worldAnswering "REJECT") "Thank you" emptyState) = Ok false.
Proof. reflexivity. Qed.

Example filterMessage_other_text :
  fst (filterMessage (worldAnswering "I cannot decide") "Thank you" emptyState) = Ok true.
Proof. reflexivity. Qed.

(* ======================================================================= *)
(** * Routing                                                                *)
(* ======================================================================= *)




(* ======================================================================= *)
(** * The pipeline                                                           *)
(* ======================================================================= *)

Lemma queries_app tr1 tr2 : queries (tr1 ++ tr2) = queries tr1 ++ queries tr2.
Proof. apply omap_app. Qed.

Lemma digests_app tr1 tr2 : digests (tr1 ++ tr2) = digests tr1 ++ digests tr2.
Proof. apply omap_app. Qed.

Lemma queries_map_Query qs : queries (map Query qs) = qs.
Proof. induction qs as [|q qs IH]; simpl; [reflexivity|]. unfold queries in *. simpl. now rewrite IH. Qed.

Lemma digests_map_Query qs : digests (map Query qs) = [].
Proof. induction qs as [|q qs IH]; [reflexivity|]. exact IH. Qed.

Lemma auditWrites_app tr1 tr2 :
  auditWrites (tr1 ++ tr2) = auditWrites tr1 ++ auditWrites tr2.
Proof. unfold auditWrites. now rewrite queries_app, List.filter_app. Qed.

Lemma logSend_run w senderHash recipientDomain contextTag status st :
  logSend w senderHash recipientDomain contextTag status st
  = (Ok tt,
     mkSt (mkDb (rate_limits_table (db st))
                (sends_table (db st) ++
                 match d1_error w (InsertSend senderHash recipientDomain contextTag status) with
                 | None => [auditRow w (sends_table (db st)) senderHash recipientDomain
                                     contextTag status]
                 | Some _ => []
                 end))
          (trace st ++ [Query (InsertSend senderHash recipientDomain contextTag status)])).
Proof.
  unfold logSend, d1_run. unfold_monad. destruct st as [[table rows] tr].
  destruct (d1_error w _); cbn; rewrite ?app_nil_r; reflexivity.
Qed.

(** The rate limiter sends D1 statements on [rate_limits] only, and leaves
    the audit log as it is. *)
Lemma checkRateLimit_frame w senderHash st :
  exists res table' qs,
    checkRateLimit w senderHash st
    = (res, mkSt (mkDb table' (sends_table (db st))) (trace st ++ map Query qs))
    /\ auditWrites (map Query qs) = [].
Proof.
  unfold checkRateLimit, d1_first, d1_run. unfold_monad.
  destruct st as [[table rows] tr]. cbn [db trace rate_limits_table sends_table].
  cbv zeta.
  destruct (d1_error w (SelectRateLimit senderHash)) as [msg|].
  { exists (Throw msg), table, [SelectRateLimit senderHash]. split; reflexivity. }
  cbn [db trace rate_limits_table sends_table].
  destruct (table !! senderHash) as [record|] eqn:Hrec.
  - destruct (Z.ltb (rate_limits.window_start record) _).
    { destruct (d1_error w (ResetRateLimit senderHash)) as [msg|]; cbn;
        rewrite <- app_assoc;
        eexists _, _, [SelectRateLimit senderHash; ResetRateLimit senderHash];
        split; reflexivity. }
    destruct (Z.ltb (rate_limits.send_count record) _).
    { destruct (d1_error w (IncrementRateLimit senderHash)) as [msg|]; cbn;
        rewrite <- app_assoc;
        eexists _, _, [SelectRateLimit senderHash; IncrementRateLimit senderHash];
        split; reflexivity. }
    exists (Ok false), table, [SelectRateLimit senderHash]. split; reflexivity.
  - destruct (d1_error w (InsertRateLimit senderHash)) as [msg|]; cbn;
      rewrite ?Hrec, <- app_assoc;
      eexists _, _, [SelectRateLimit senderHash; InsertRateLimit senderHash];
      split; reflexivity.
Qed.

Lemma fetch_validated w request data st :
  validated request = Some data ->
  fetch w request st
  = match process w data st with
    | (Ok response, st') => (Ok response, st')
    | (Throw msg, st') =>
        (Ok (errorResponse server_error ("An unexpected error occurred: " +:+ msg) 500),
         st')
    end.
Proof.
  unfold validated, fetch, pipeline. unfold_monad.
  destruct (String.eqb_spec (method request) "POST") as [Hm|]; [|discriminate].
  rewrite Hm. cbn [String.eqb Ascii.eqb Bool.eqb negb orb andb].
  destruct (String.eqb (pathname request) "/send"); [|discriminate].
  destruct (json_body request) as [body|]; [|discriminate].
  destruct (validateRequest body) as [data'|f]; [|discriminate].
  intros [= ->]. cbn [negb orb]. destruct (process w data st) as [[response|msg] st']; reflexivity.
Qed.

Lemma fetch_not_validated w request st :
  validated request = None ->
  exists response, fetch w request st = (Ok response, st).
Proof.
  unfold validated, fetch, pipeline. unfold_monad.
  destruct (String.eqb (method request) "OPTIONS"); [eauto|].
  destruct (String.eqb (method request) "POST"); [|eauto].
  destruct (String.eqb (pathname request) "/send"); [|eauto].
  cbn [negb orb andb].
  destruct (json_body request) as [body|]; [|eauto].
  destruct (validateRequest body) as [data'|f]; [discriminate|eauto].
Qed.

(** The run of steps 2 to 6, given the run of the rate limiter. *)
Lemma process_shape w data st :
  let senderHash := sha256_hex w (sender_token data) in
  let recipientDomain := extractDomain (recipient_email data) in
  let mail := emailFor (recipient_email data) (context_tag data) (message data) in
  let logged st2 (events : list Event) (status : SendStatus) :=
    snd (logSend w senderHash recipientDomain (context_tag data) status
                 (mkSt (db st2) (trace st2 ++ events))) in
  process w data st =
  match checkRateLimit w senderHash
          (mkSt (db st) (trace st ++ [Digest (sender_token data)])) with
  | (Throw msg, st2) => (Throw msg, st2)
  | (Ok false, st2) =>
      (Ok (errorResponse rate_limited
             "You've sent too many messages today. Please try again tomorrow." 429),
       logged st2 [] rejected)
  | (Ok true, st2) =>
      if filterVerdict (gemini w (message data)) then
        if delivered (resend w mail) then
          (Ok (jsonResponse SuccessResponse 200),
           logged st2 [CallGemini (message data); CallResend mail] sent)
        else
          (Ok (errorResponse server_error
                 "Failed to send email. Please try again later." 500),
           logged st2 [CallGemini (message data); CallResend mail] error)
      else
        (Ok (errorResponse message_rejected
               "This message doesn't appear to be expressing gratitude." 400),
         logged st2 [CallGemini (message data)] rejected)
  end.
Proof.
  cbv zeta. unfold process.
  unfold mbind, M_bind, bind at 1. rewrite hashString_run.
  unfold bind at 1.
  destruct (checkRateLimit _ _ _) as [[[|]|msg] st2]; [| |reflexivity];
    cbn [negb];
    [ unfold bind at 1; rewrite filterMessage_run;
      destruct (filterVerdict _); cbn [negb];
      [ unfold bind at 1; rewrite sendEmail_run;
        destruct (delivered _); cbn [negb] | ] | ];
    unfold bind at 1; rewrite !logSend_run; cbn [db trace snd fst];
    unfold mret, M_ret, ret; rewrite <- ?app_assoc; cbn [app];
    rewrite ?app_nil_r; reflexivity.
Qed.



(** C4, as the code has it.  The handler always answers.  A request that
    is not a validated [POST /send] leaves the state as it is: nothing is
    hashed and nothing is sent to D1.  For a validated request the sender
    token is hashed once, and the outcome follows the steps: when a
    statement of the rate limiter fails, the response is the 500 of the
    unhandled error and no insert into the audit log is sent; when the
    rate limiter denies, the response is the 429 and the status to log is
    [rejected]; when the classifier denies, the response is the 400 of the
    rejected message and the status is [rejected]; when the delivery
    fails, the response is the 500 of the failed delivery and the status
    is [error]; otherwise the response is the 200 and the status is
    [sent].  In these four outcomes exactly one insert into the audit log
    is sent, with that status, and the audit log grows by that one row
    when D1 executes the insert and stays as it is when D1 refuses it. *)
Theorem audit_record_per_outcome (w : World) (request : Request) (st : St) :
  exists response st',
    fetch w request st = (Ok response, st')
    /\ match validated request with
       | None => st' = st
       | Some data =>
           let senderHash := sha256_hex w (sender_token data) in
           let recipientDomain := extractDomain (recipient_email data) in
           let mail :=
             emailFor (recipient_email data) (context_tag data) (message data) in
           exists events,
             trace st' = trace st ++ Digest (sender_token data) :: events
             /\ digests events = []
             /\ match fst (checkRateLimit w senderHash
                             (mkSt (db st) (trace st ++ [Digest (sender_token data)]))) with
                | Throw msg =>
                    response
                    = errorResponse server_error
                        ("An unexpected error occurred: " +:+ msg) 500
                    /\ auditStatusFor response = None
                | Ok false =>
                    response
                    = errorResponse rate_limited
                        "You've sent too many messages today. Please try again tomorrow."
                        429
                    /\ auditStatusFor response = Some rejected
                | Ok true =>
                    if filterVerdict (gemini w (message data)) then
                      if delivered (resend w mail) then
                        response = jsonResponse SuccessResponse 200
                        /\ auditStatusFor response = Some sent
                      else
                        response
                        = errorResponse server_error
                            "Failed to send email. Please try again later." 500
                        /\ auditStatusFor response = Some error
                    else
                      response
                      = errorResponse message_rejected
                          "This message doesn't appear to be expressing gratitude." 400
                      /\ auditStatusFor response = Some rejected
                end
             /\ match auditStatusFor response with
                | Some outcome =>
                    let insert :=
                      InsertSend senderHash recipientDomain (context_tag data) outcome in
                    auditWrites events = [insert]
                    /\ sends_table (db st')
                       = sends_table (db st) ++
                         match d1_error w insert with
                         | None => [auditRow w (sends_table (db st)) senderHash
                                             recipientDomain (context_tag data) outcome]
                         | Some _ => []
                         end
                | None =>
                    status response = 500
                    /\ auditWrites events = []
                    /\ sends_table (db st') = sends_table (db st)
                end
       end.
Proof.
  destruct (validated request) as [data|] eqn:Hv.
  2: { destruct (fetch_not_validated w request st Hv) as [response Hrun]. eauto. }
  rewrite (fetch_validated _ _ _ _ Hv), process_shape. cbv zeta.
  destruct (checkRateLimit_frame w (sha256_hex w (sender_token data))
              (mkSt (db st) (trace st ++ [Digest (sender_token data)])))
    as (res & table' & qs & -> & Haudit).
  cbn [db trace fst].
  destruct res as [[|]|msg];
    [destruct (filterVerdict _); [destruct (delivered _)|] | |];
    rewrite ?logSend_run; cbn [db trace snd fst sends_table];
    (eexists _, _; split; [reflexivity|]);
    cbn [db trace sends_table];
    rewrite <- ?app_assoc; cbn [app];
    (eexists; split; [reflexivity|]);
    rewrite ?digests_app, ?auditWrites_app, ?digests_map_Query, ?Haudit;
    repeat split; reflexivity.
Qed.

(** C4 as stated fails: when D1 refuses the insert into the audit log, a
    validated request still reaches its outcome (here success, 200) and no
    audit record is written. *)
Lemma audit_record_lost_when_insert_fails :
  let run := fetch auditDownWorld (postSend (sampleBody "Thank you for everything."))
                   emptyState in
  validated (postSend (sampleBody "Thank you for everything.")) <> None
  /\ fst run = Ok (jsonResponse SuccessResponse 200)
  /\ sends_table (db (snd run)) = sends_table (db emptyState)
  /\ length (sends_table (db (snd run))) <> S (length (sends_table (db emptyState))).
Proof.
  cbv zeta. vm_compute. repeat split; discriminate.
Qed.

(* ======================================================================= *)
(** * The validator                                                          *)
(* ======================================================================= *)

Lemma notBlank_solid_head c t : isWhiteSpace c = false -> notBlank (String c t) = true.
Proof.
  intros Hc. unfold notBlank, trim. cbn [trimStart]. rewrite Hc, trimEnd_cons, Hc, andb_false_r.
  reflexivity.
Qed.

Lemma isValidEmail_notBlank email : isValidEmail email = true -> notBlank email = true.
Proof.
  intros (loc & d1 & d2 & -> & Hloc & _ & _ & Hcl & _)%isValidEmail_shape.
  destruct loc as [|c loc]; [congruence|].
  simpl in Hcl. apply andb_true_iff in Hcl as [Hc _].
  unfold notSpaceNorAt in Hc. apply negb_true_iff, orb_false_iff in Hc as [Hc _].
  simpl. now apply notBlank_solid_head.
Qed.

Lemma isValidContextTag_notBlank tag : isValidContextTag tag = true -> notBlank tag = true.
Proof.
  unfold isValidContextTag, VALID_CONTEXT_TAGS. cbn [existsb].
  rewrite !orb_true_iff.
  intros H; repeat destruct H as [H|H]; try discriminate;
    apply String.eqb_eq in H; subst tag; reflexivity.
Qed.

Lemma requiredString_spec (body : json) (key : string) :
  match requiredString (getField body key) with
  | Some s => getField body key = Some (JStr s) /\ notBlank s = true
  | None => forall p, (forall s, p s = true -> notBlank s = true) ->
                      stringField body key p = false
  end.
Proof.
  unfold requiredString, stringField.
  destruct (getField body key) as [[| | |s| |]|]; try (intros; reflexivity).
  fold (notBlank s). destruct (notBlank s) eqn:Hs; [auto|].
  intros p Hp. destruct (p s) eqn:Hps; [|reflexivity].
  apply Hp in Hps. congruence.
Qed.

Lemma notBlank_and_withinLength s :
  notBlank s && withinLength s = true -> notBlank s = true.
Proof. now intros [? _]%andb_true_iff. Qed.

(** C6, as the code has it.  [validateRequest] is the fail-fast evaluation
    of eight tests in the order of the source: the payload is a non-null
    value of type object; [message], [recipient_email], [context_tag] and
    [sender_token] are, in this order, strings that are not blank; the
    message is within the maximum length; the recipient matches the e-mail
    pattern; the tag is one of the eight.  The failure it returns reports
    a check of the specification that is violated, and it accepts a
    payload exactly when the five checks of the specification hold. *)
Theorem validateRequest_check_order (body : json) :
  match validateRequest body with
  | Invalid f => firstFailure body = Some f /\ holds (checkOf f) body = false
  | Valid _ => firstFailure body = None /\ firstViolated body = None
  end.
Proof.
  unfold validateRequest, firstFailure, firstViolated, sourceOrder, specifiedOrder.
  cbn [find fst snd checkOf].
  assert (Hobj : negb (truthy body) || negb (String.eqb (typeof body) "object")
                 = negb (holds PayloadIsObject body))
    by (cbn [holds]; now rewrite negb_andb).
  rewrite Hobj. destruct (holds PayloadIsObject body) eqn:Hpayload; cbn [negb];
    [|split; [reflexivity | exact Hpayload]].
  pose proof (requiredString_spec body "message") as Hm.
  destruct (requiredString (getField body "message")) as [m|];
    [destruct Hm as [Hm Hmb] |
     split; [rewrite (Hm notBlank) by auto; reflexivity |
             apply Hm, notBlank_and_withinLength]].
  pose proof (requiredString_spec body "recipient_email") as He.
  destruct (requiredString (getField body "recipient_email")) as [e|];
    [destruct He as [He Heb] |
     split; [rewrite (He notBlank) by auto; unfold stringField; rewrite Hm, Hmb;
             reflexivity |
             apply He, isValidEmail_notBlank]].
  pose proof (requiredString_spec body "context_tag") as Ht.
  destruct (requiredString (getField body "context_tag")) as [t|];
    [destruct Ht as [Ht Htb] |
     split; [rewrite (Ht notBlank) by auto; unfold stringField;
             rewrite Hm, Hmb, He, Heb; reflexivity |
             apply Ht, isValidContextTag_notBlank]].
  pose proof (requiredString_spec body "sender_token") as Hk.
  destruct (requiredString (getField body "sender_token")) as [k|];
    [destruct Hk as [Hk Hkb] |
     split; [rewrite (Hk notBlank) by auto; unfold stringField;
             rewrite Hm, Hmb, He, Heb, Ht, Htb; reflexivity |
             apply Hk; auto]].
  replace (MAX_MESSAGE_LENGTH <? Z.of_nat (String.length m)) with (negb (withinLength m))
    by (unfold withinLength; rewrite Z.leb_antisym, negb_involutive; reflexivity).
  cbn [holds]. unfold stringField. rewrite Hm, He, Ht, Hk, Hmb, Heb, Htb, Hkb.
  cbn [negb andb].
  destruct (withinLength m) eqn:Hlen; cbn [negb];
    [destruct (isValidEmail e) eqn:Hmail; cbn [negb];
     [destruct (isValidContextTag t) eqn:Htag; cbn [negb]| ] | ];
    (split; [reflexivity|]);
    try reflexivity;
    cbn [holds checkOf]; unfold stringField;
    rewrite ?Hm, ?He, ?Ht, ?Hlen, ?Hmail, ?Htag, ?andb_false_r; reflexivity.
Qed.

(** C6 as stated fails: on a payload whose recipient is not an e-mail
    address and whose sender token is missing, the first check of the
    specified order that is violated is the one on the recipient, and the
    validator reports the sender token. *)
Lemma validateRequest_reports_later_check :
  let body := JObj [("message", JStr "Thank you for everything.");
                    ("recipient_email", JStr "not-an-email");
                    ("context_tag", JStr "mentor")] in
  validateRequest body = Invalid SenderTokenRequired
  /\ firstViolated body = Some RecipientOk
  /\ firstViolated body <> Some (checkOf SenderTokenRequired).
Proof. cbv zeta. vm_compute. repeat split; discriminate. Qed.

(** The validator on the payloads of the tests of the worker. *)
Example validateRequest_missing_fields :
  validateRequest (JObj [("message", JStr "Hello")]) = Invalid RecipientRequired.
Proof. reflexivity. Qed.

Example validateRequest_invalid_email :
  validateRequest
    (JObj [("message", JStr "Thank you for everything.");
           ("recipient_email", JStr "not-an-email");
           ("context_tag", JStr "mentor");
           ("sender_token", JStr "unique-anonymous-token-123")])
  = Invalid InvalidEmailFormat.
Proof. reflexivity. Qed.

Example validateRequest_invalid_tag :
  validateRequest
    (JObj [("message", JStr "Thank you for everything.");
           ("recipient_email", JStr "recipient@example.com");
           ("context_tag", JStr "invalid-tag");
           ("sender_token", JStr "unique-anonymous-token-123")])
  = Invalid InvalidContextTag.
Proof. reflexivity. Qed.

Example validateRequest_array :
  validateRequest (JArr []) = Invalid MessageRequired.
Proof. reflexivity. Qed.

(* ======================================================================= *)
(** * The rate limiter on sample runs                                        *)
(* ======================================================================= *)

(** Five sends from a new sender are allowed, the sixth is denied. *)
Example checkRateLimit_sixth_denied :
  let h := "sha256:unique-anonymous-token-123" in
  let next st := snd (checkRateLimit sampleWorld h st) in
  let st5 := next (next (next (next (next emptyState)))) in
  fst (checkRateLimit sampleWorld h (next (next (next (next emptyState))))) = Ok true
  /\ rate_limits_table (db st5) !! h = Some (rate_limits.mk 5 1767225600)
  /\ fst (checkRateLimit sampleWorld h st5) = Ok false.
Proof. vm_compute. repeat split. Qed.

(** A record that is exactly 24 hours old is still in its window; one
    second later the window has elapsed and the count starts again. *)
Example checkRateLimit_window_boundary :
  let h := "sha256:unique-anonymous-token-123" in
  let aged (seconds : Z) :=
    mkSt (mkDb {[ h := rate_limits.mk 5 (1767225600 - seconds) ]} []) [] in
  fst (checkRateLimit sampleWorld h (aged 86400)) = Ok false
  /\ fst (checkRateLimit sampleWorld h (aged 86401)) = Ok true
  /\ rate_limits_table (db (snd (checkRateLimit sampleWorld h (aged 86401)))) !! h
     = Some (rate_limits.mk 1 1767225600).
Proof. vm_compute. repeat split. Qed.

(** The successful path of the handler writes one audit row, made of the
    digest of the token, the domain of the recipient, the tag, the status
    and the time. *)
Example fetch_success_audit_row :
  sends_table (db (snd (fetch sampleWorld
                              (postSend (sampleBody "Thank you for everything."))
                              emptyState)))
  = [sends.mk 1 "sha256:unique-anonymous-token-123" "example.com" "mentor" "sent"
              1767225600].
Proof. vm_compute. reflexivity. Qed.

(* ======================================================================= *)
(** * Further properties: e-mail addresses and domains                       *)
(* ======================================================================= *)

Lemma in_Star_Class_intro p s : allChars p s = true -> in_lang (Star (Class p)) s.
Proof.
  induction s as [|c t IH]; simpl; intros H; [constructor|].
  apply andb_true_iff in H as [Hc Ht].
  change (String c t) with (String c EmptyString +:+ t).
  constructor; [now constructor | auto].
Qed.

Lemma in_Plus_Class_intro p s :
  s <> EmptyString -> allChars p s = true -> in_lang (Plus (Class p)) s.
Proof.
  destruct s as [|c t]; [congruence|]. simpl. intros _ [Hc Ht]%andb_true_iff.
  change (String c t) with (String c EmptyString +:+ t).
  constructor; [now constructor | now apply in_Star_Class_intro].
Qed.

Lemma isValidEmail_build loc d1 d2 :
  loc <> EmptyString -> d1 <> EmptyString -> d2 <> EmptyString ->
  allChars notSpaceNorAt loc = true ->
  allChars notSpaceNorAt d1 = true ->
  allChars notSpaceNorAt d2 = true ->
  isValidEmail (loc +:+ "@" +:+ d1 +:+ "." +:+ d2) = true.
Proof.
  intros Hloc Hd1 Hd2 Hcl Hc1 Hc2.
  unfold isValidEmail, emailRegex. apply matches_spec.
  constructor; [now apply in_Plus_Class_intro|].
  change ("@" +:+ d1 +:+ "." +:+ d2) with (String "@" EmptyString +:+ (d1 +:+ "." +:+ d2)).
  constructor; [now constructor|].
  constructor; [now apply in_Plus_Class_intro|].
  change ("." +:+ d2) with (String "." EmptyString +:+ d2).
  constructor; [now constructor | now apply in_Plus_Class_intro].
Qed.

(** X1. [isValidEmail] accepts exactly the strings made of a non-empty
    local part, an at-sign, and a domain that has a dot with non-empty text
    on both sides, where no part contains white space or a further
    at-sign. *)
Theorem isValidEmail_iff (email : string) :
  isValidEmail email = true <->
  exists loc d1 d2,
    email = loc +:+ "@" +:+ d1 +:+ "." +:+ d2
    /\ loc <> EmptyString /\ d1 <> EmptyString /\ d2 <> EmptyString
    /\ allChars notSpaceNorAt loc = true
    /\ allChars notSpaceNorAt d1 = true
    /\ allChars notSpaceNorAt d2 = true.
Proof.
  split; [apply isValidEmail_shape|].
  intros (loc & d1 & d2 & -> & Hloc & Hd1 & Hd2 & Hcl & Hc1 & Hc2).
  now apply isValidEmail_build.
Qed.

Lemma allChars_mapChars p f s :
  (forall c, p c = true -> p (f c) = true) ->
  allChars p s = true -> allChars p (mapChars f s) = true.
Proof.
  intros Hf. induction s as [|c t IH]; simpl; [auto|].
  intros [Hc Ht]%andb_true_iff. now rewrite (Hf _ Hc), IH.
Qed.

Lemma mapChars_app f s1 s2 : mapChars f (s1 +:+ s2) = mapChars f s1 +:+ mapChars f s2.
Proof. induction s1 as [|c t IH]; simpl; [reflexivity | now rewrite IH]. Qed.

Lemma toLowerChar_notSpaceNorAt c :
  notSpaceNorAt c = true -> notSpaceNorAt (toLowerChar c) = true.
Proof. destruct c as [[] [] [] [] [] [] [] []]; intros H; try discriminate H; reflexivity. Qed.

Lemma toLowerChar_notAt c : notAt c = true -> notAt (toLowerChar c) = true.
Proof. destruct c as [[] [] [] [] [] [] [] []]; intros H; try discriminate H; reflexivity. Qed.

Lemma isValidEmail_toLowerCase (email : string) :
  isValidEmail email = true -> isValidEmail (toLowerCase email) = true.
Proof.
  intros (loc & d1 & d2 & -> & Hloc & Hd1 & Hd2 & Hcl & Hc1 & Hc2)%isValidEmail_shape.
  unfold toLowerCase. rewrite !mapChars_app.
  apply isValidEmail_build; try (now apply mapChars_nonempty);
    now apply allChars_mapChars; [apply toLowerChar_notSpaceNorAt|].
Qed.

Lemma split_notAt s : Forall (fun p => allChars notAt p = true) (split "@" s).
Proof.
  induction s as [|c t IH]; simpl; [repeat constructor|].
  destruct (Ascii.eqb c "@") eqn:Hc; [constructor; auto|].
  destruct (split "@" t) as [|p ps]; [repeat constructor; simpl; unfold notAt; now rewrite Hc|].
  inversion IH; subst. constructor; [|assumption].
  simpl. unfold notAt at 1. rewrite Hc. assumption.
Qed.

Lemma mapChars_idem_on f s :
  (forall c, f (f c) = f c) -> mapChars f (mapChars f s) = mapChars f s.
Proof. intros Hf. induction s as [|c t IH]; simpl; [reflexivity | now rewrite Hf, IH]. Qed.

(** X2. On every string [extractDomain] returns a lower-cased text without
    at-sign; it returns the empty string when the string has no at-sign,
    and otherwise the lower-cased text between the first at-sign and the
    next one (or the end). *)
Theorem extractDomain_behaviour (email : string) :
  allChars notAt (extractDomain email) = true
  /\ toLowerCase (extractDomain email) = extractDomain email
  /\ (allChars notAt email = true -> extractDomain email = EmptyString)
  /\ (forall loc mid rest,
        email = loc +:+ "@" +:+ mid +:+ rest ->
        allChars notAt loc = true ->
        allChars notAt mid = true ->
        rest = EmptyString \/ (exists r, rest = String "@" r) ->
        extractDomain email = toLowerCase mid).
Proof.
  repeat split.
  - unfold extractDomain. destruct (1 <? length (split "@" email))%nat; [|reflexivity].
    apply allChars_mapChars; [apply toLowerChar_notAt|].
    pose proof (split_notAt email) as Hall.
    destruct (split "@" email) as [|p [|q qs]]; try reflexivity.
    inversion Hall as [|? ? _ Hq]; subst. inversion Hq; subst. assumption.
  - unfold extractDomain. destruct (1 <? length (split "@" email))%nat; [|reflexivity].
    apply mapChars_idem_on, toLowerChar_idem.
  - intros Hno. unfold extractDomain. now rewrite split_without.
  - intros loc mid rest -> Hloc Hmid Hrest. unfold extractDomain.
    change ("@" +:+ mid +:+ rest) with (String "@" (mid +:+ rest)).
    rewrite split_at_first by assumption.
    destruct Hrest as [->|[r ->]].
    + rewrite append_nil_r, split_without by assumption. reflexivity.
    + rewrite split_at_first by assumption. reflexivity.
Qed.

Lemma extractDomain_behaviour_witness :
  allChars notAt "nobody" = true
  /\ extractDomain "nobody" = EmptyString
  /\ extractDomain "a@B.c@d" = toLowerCase "B.c".
Proof.
  split; [reflexivity|].
  split; [apply (extractDomain_behaviour "nobody"); reflexivity|].
  apply (extractDomain_behaviour "a@B.c@d") with (loc := "a") (rest := "@d");
    [reflexivity | reflexivity | reflexivity | right; exists "d"; reflexivity].
Defined.

(** X3. [isValidContextTag] accepts the strings of the eight tags and no
    other string, and on an accepted string the cast to [ContextTag] gives
    the tag that is written that way. *)
Theorem context_tag_round_trip :
  (forall t, isValidContextTag (tagString t) = true /\ asContextTag (tagString t) = t)
  /\ (forall s, isValidContextTag s = true -> tagString (asContextTag s) = s).
Proof.
  split.
  - intros t. destruct t; split; reflexivity.
  - intros s. unfold isValidContextTag, VALID_CONTEXT_TAGS. cbn [existsb].
    rewrite !orb_true_iff.
    intros H; repeat destruct H as [H|H]; try discriminate;
      apply String.eqb_eq in H; subst s; reflexivity.
Qed.

Lemma context_tag_round_trip_witness :
  isValidContextTag "old-friend" = true
  /\ tagString (asContextTag "old-friend") = "old-friend".
Proof.
  split; [reflexivity|].
  apply (proj2 context_tag_round_trip "old-friend"). reflexivity.
Defined.

(* ======================================================================= *)
(** * Further properties: the validator                                      *)
(* ======================================================================= *)

Lemma trimStart_length s : (String.length (trimStart s) <= String.length s)%nat.
Proof.
  induction s as [|c t IH]; simpl; [lia|]. destruct (isWhiteSpace c); simpl; lia.
Qed.

Lemma trimEnd_length s : (String.length (trimEnd s) <= String.length s)%nat.
Proof.
  induction s as [|c t IH]; [simpl; lia|].
  rewrite trimEnd_cons. destruct (_ && _); simpl; lia.
Qed.

Lemma trim_length s : (String.length (trim s) <= String.length s)%nat.
Proof.
  unfold trim. pose proof (trimEnd_length (trimStart s)). pose proof (trimStart_length s). lia.
Qed.

Lemma trimEnd_idem s : trimEnd (trimEnd s) = trimEnd s.
Proof.
  induction s as [|c t IH]; [reflexivity|].
  rewrite trimEnd_cons.
  destruct (String.eqb (trimEnd t) EmptyString && isWhiteSpace c) eqn:Hcond; [reflexivity|].
  now rewrite trimEnd_cons, IH, Hcond.
Qed.

Lemma trimStart_solidHead s : solidHead (trimStart s).
Proof.
  induction s as [|c t IH]; simpl; [exact I|].
  destruct (isWhiteSpace c) eqn:Hc; [assumption | exact Hc].
Qed.

Lemma trimEnd_solidHead s : solidHead s -> solidHead (trimEnd s).
Proof.
  destruct s as [|c t]; [auto|]. simpl solidHead at 1. intros Hc.
  now rewrite trimEnd_cons, Hc, andb_false_r.
Qed.

Lemma trimStart_of_solidHead s : solidHead s -> trimStart s = s.
Proof. destruct s as [|c t]; simpl; [auto|]. now intros ->. Qed.

Lemma trim_idem s : trim (trim s) = trim s.
Proof.
  unfold trim at 1.
  rewrite (trimStart_of_solidHead (trim s))
    by (apply trimEnd_solidHead, trimStart_solidHead).
  apply trimEnd_idem.
Qed.

Lemma trimEnd_solid s :
  allChars (fun c => negb (isWhiteSpace c)) s = true -> trimEnd s = s.
Proof.
  induction s as [|c t IH]; [reflexivity|]. simpl allChars.
  intros [Hc Ht]%andb_true_iff. apply negb_true_iff in Hc.
  now rewrite trimEnd_cons, Hc, andb_false_r, IH.
Qed.

Lemma trim_solid s :
  allChars (fun c => negb (isWhiteSpace c)) s = true -> trim s = s.
Proof.
  intros H. unfold trim. rewrite trimStart_of_solidHead.
  - now apply trimEnd_solid.
  - destruct s as [|c t]; simpl in *; [exact I|].
    apply andb_true_iff in H as [Hc _]. now apply negb_true_iff in Hc.
Qed.

Lemma notSpaceNorAt_solid c : notSpaceNorAt c = true -> negb (isWhiteSpace c) = true.
Proof.
  unfold notSpaceNorAt. rewrite !negb_true_iff, orb_false_iff. tauto.
Qed.

Lemma isValidEmail_solid email :
  isValidEmail email = true ->
  allChars (fun c => negb (isWhiteSpace c)) email = true.
Proof.
  intros (loc & d1 & d2 & -> & _ & _ & _ & Hcl & Hc1 & Hc2)%isValidEmail_shape.
  rewrite !allChars_app. simpl.
  now rewrite (allChars_impl _ _ _ notSpaceNorAt_solid Hcl),
              (allChars_impl _ _ _ notSpaceNorAt_solid Hc1),
              (allChars_impl _ _ _ notSpaceNorAt_solid Hc2).
Qed.

Lemma extractDomain_nonempty email :
  isValidEmail email = true -> extractDomain email <> EmptyString.
Proof.
  intros (loc & d1 & d2 & -> & Hloc & Hd1 & Hd2 & Hcl & Hc1 & Hc2)%isValidEmail_shape.
  unfold extractDomain.
  change ("@" +:+ d1 +:+ "." +:+ d2) with (String "@" (d1 +:+ "." +:+ d2)).
  rewrite split_at_first
    by (eapply allChars_impl; [apply notSpaceNorAt_notAt | exact Hcl]).
  destruct (split "@" (d1 +:+ "." +:+ d2)) as [|p ps] eqn:Hs.
  - destruct d1; simpl in Hs; [congruence|].
    destruct (Ascii.eqb _ _); [discriminate|]. destruct (split _ _); discriminate.
  - simpl. destruct d1 as [|c d1]; [congruence|]. simpl in Hs.
    simpl in Hc1. apply andb_true_iff in Hc1 as [Hc _].
    apply notSpaceNorAt_notAt in Hc. unfold notAt in Hc. apply negb_true_iff in Hc.
    rewrite Hc in Hs. destruct (split "@" _); injection Hs as <- _; discriminate.
Qed.

(** The four strings of a payload that [validateRequest] accepts. *)
Lemma validateRequest_Valid_inv body data :
  validateRequest body = Valid data ->
  exists m e t k,
    getField body "message" = Some (JStr m)
    /\ getField body "recipient_email" = Some (JStr e)
    /\ getField body "context_tag" = Some (JStr t)
    /\ getField body "sender_token" = Some (JStr k)
    /\ notBlank m = true /\ withinLength m = true
    /\ isValidEmail e = true /\ isValidContextTag t = true /\ notBlank k = true
    /\ data = {| message := trim m;
                 recipient_email := toLowerCase (trim e);
                 context_tag := asContextTag t;
                 sender_token := trim k |}.
Proof.
  unfold validateRequest.
  destruct (negb (truthy body) || _); [discriminate|].
  pose proof (requiredString_spec body "message") as Hm.
  destruct (requiredString (getField body "message")) as [m|]; [|discriminate].
  pose proof (requiredString_spec body "recipient_email") as He.
  destruct (requiredString (getField body "recipient_email")) as [e|]; [|discriminate].
  pose proof (requiredString_spec body "context_tag") as Ht.
  destruct (requiredString (getField body "context_tag")) as [t|]; [|discriminate].
  pose proof (requiredString_spec body "sender_token") as Hk.
  destruct (requiredString (getField body "sender_token")) as [k|]; [|discriminate].
  destruct Hm as [Hm Hmb], He as [He Heb], Ht as [Ht Htb], Hk as [Hk Hkb].
  destruct (MAX_MESSAGE_LENGTH <? _) eqn:Hlen; [discriminate|].
  destruct (isValidEmail e) eqn:Hmail; [|discriminate].
  destruct (isValidContextTag t) eqn:Htag; [|discriminate].
  cbn [negb]. intros [= <-].
  exists m, e, t, k. repeat split; auto.
  unfold withinLength. apply Z.leb_le. apply Z.ltb_ge in Hlen. exact Hlen.
Qed.

(** X4. What [validateRequest] returns for a payload it accepts: the
    message and the sender token are the trimmed strings of the payload,
    not empty, and the message has at most 2000 characters; the recipient
    is the lower-cased address of the payload, which had no white space to
    trim, and is itself a valid address with a non-empty domain; the tag
    is the one the payload names. *)
Theorem validateRequest_normalizes (body : json) (data : SendRequest) :
  validateRequest body = Valid data ->
  exists m e k,
    getField body "message" = Some (JStr m)
    /\ getField body "recipient_email" = Some (JStr e)
    /\ getField body "context_tag" = Some (JStr (tagString (context_tag data)))
    /\ getField body "sender_token" = Some (JStr k)
    /\ message data = trim m
    /\ recipient_email data = toLowerCase e
    /\ sender_token data = trim k
    /\ message data <> EmptyString
    /\ Z.of_nat (String.length (message data)) <= 2000
    /\ trim (message data) = message data
    /\ sender_token data <> EmptyString
    /\ isValidEmail (recipient_email data) = true
    /\ extractDomain (recipient_email data) <> EmptyString.
Proof.
  intros (m & e & t & k & Hm & He & Ht & Hk & Hmb & Hlen & Hmail & Htag & Hkb & ->)
         %validateRequest_Valid_inv.
  cbn [message recipient_email context_tag sender_token].
  assert (Htrim : trim e = e) by (apply trim_solid, isValidEmail_solid, Hmail).
  rewrite Htrim.
  exists m, e, k. repeat split; auto.
  - rewrite Ht. do 2 f_equal. symmetry.
    unfold isValidContextTag, VALID_CONTEXT_TAGS in Htag. cbn [existsb] in Htag.
    rewrite !orb_true_iff in Htag.
    repeat destruct Htag as [Htag|Htag]; try discriminate;
      apply String.eqb_eq in Htag; subst t; reflexivity.
  - unfold notBlank, nonEmpty in Hmb. intros Hz. rewrite Hz in Hmb. discriminate.
  - unfold withinLength in Hlen. apply Z.leb_le in Hlen.
    pose proof (trim_length m). change MAX_MESSAGE_LENGTH with 2000 in Hlen. lia.
  - apply trim_idem.
  - unfold notBlank, nonEmpty in Hkb. intros Hz. rewrite Hz in Hkb. discriminate.
  - now apply isValidEmail_toLowerCase.
  - now apply extractDomain_nonempty, isValidEmail_toLowerCase.
Qed.

Lemma validateRequest_normalizes_witness :
  validateRequest (JObj [("message", JStr "  Thank you.  ");
                         ("recipient_email", JStr "Recipient@Example.COM");
                         ("context_tag", JStr "mentor");
                         ("sender_token", JStr " token-1 ")])
  = Valid (mkSendRequest "Thank you." "recipient@example.com" mentor "token-1")
  /\ exists m e k,
       m = "  Thank you.  " /\ e = "Recipient@Example.COM" /\ k = " token-1 "
       /\ "Thank you." = trim m /\ "recipient@example.com" = toLowerCase e
       /\ "token-1" = trim k.
Proof.
  split; [vm_compute; reflexivity|].
  destruct (validateRequest_normalizes
              (JObj [("message", JStr "  Thank you.  ");
                     ("recipient_email", JStr "Recipient@Example.COM");
                     ("context_tag", JStr "mentor");
                     ("sender_token", JStr " token-1 ")])
              (mkSendRequest "Thank you." "recipient@example.com" mentor "token-1"))
    as (m & e & k & Hm & He & _ & Hk & Hm' & He' & Hk' & _);
    [vm_compute; reflexivity|].
  exists m, e, k.
  vm_compute in Hm, He, Hk. injection Hm as <-. injection He as <-. injection Hk as <-.
  repeat split.
Defined.

(** X5. Validation is idempotent on its result: the request that
    [validateRequest] returns, sent again as a payload, is accepted and
    returned unchanged. *)
Theorem validateRequest_fixed_point (body : json) (data : SendRequest) :
  validateRequest body = Valid data ->
  validateRequest (bodyOf data) = Valid data.
Proof.
  intros (m & e & t & k & Hm & He & Ht & Hk & Hmb & Hlen & Hmail & Htag & Hkb & ->)
         %validateRequest_Valid_inv.
  assert (Htrim : trim e = e) by (apply trim_solid, isValidEmail_solid, Hmail).
  assert (Hlow : isValidEmail (toLowerCase e) = true) by now apply isValidEmail_toLowerCase.
  assert (Htag' : tagString (asContextTag t) = t).
  { unfold isValidContextTag, VALID_CONTEXT_TAGS in Htag. cbn [existsb] in Htag.
    rewrite !orb_true_iff in Htag.
    repeat destruct Htag as [Htag|Htag]; try discriminate;
      apply String.eqb_eq in Htag; subst t; reflexivity. }
  unfold validateRequest, bodyOf.
  cbn [message recipient_email context_tag sender_token truthy typeof negb orb
       String.eqb Ascii.eqb Bool.eqb].
  rewrite Htrim, Htag'.
  unfold getField.
  replace (ownProperty _ "message") with (Some (JStr (trim m))) by reflexivity.
  replace (ownProperty _ "recipient_email") with (Some (JStr (toLowerCase e))) by reflexivity.
  replace (ownProperty _ "context_tag") with (Some (JStr t)) by reflexivity.
  replace (ownProperty _ "sender_token") with (Some (JStr (trim k))) by reflexivity.
  unfold requiredString.
  fold (notBlank (trim m)) (notBlank (toLowerCase e)) (notBlank t) (notBlank (trim k)).
  assert (Hnb : forall s, notBlank (trim s) = notBlank s)
    by (intros s; unfold notBlank; now rewrite trim_idem).
  rewrite !Hnb, Hmb, Hkb, (isValidEmail_notBlank _ Hlow), (isValidContextTag_notBlank _ Htag).
  assert (Hlen' : (MAX_MESSAGE_LENGTH <? Z.of_nat (String.length (trim m))) = false).
  { apply Z.ltb_ge. unfold withinLength in Hlen. apply Z.leb_le in Hlen.
    pose proof (trim_length m). lia. }
  rewrite Hlen', Hlow, Htag. cbn [negb].
  rewrite !trim_idem.
  rewrite (trim_solid (toLowerCase e)) by (apply isValidEmail_solid, Hlow).
  unfold toLowerCase. rewrite (mapChars_idem_on _ _ toLowerChar_idem).
  reflexivity.
Qed.

Lemma validateRequest_fixed_point_witness :
  validateRequest (sampleBody "  Thank you.  ")
  = Valid (mkSendRequest "Thank you." "recipient@example.com" mentor
                         "unique-anonymous-token-123")
  /\ validateRequest
       (bodyOf (mkSendRequest "Thank you." "recipient@example.com" mentor
                              "unique-anonymous-token-123"))
     = Valid (mkSendRequest "Thank you." "recipient@example.com" mentor
                            "unique-anonymous-token-123").
Proof.
  split; [vm_compute; reflexivity|].
  apply (validateRequest_fixed_point (sampleBody "  Thank you.  ")).
  vm_compute; reflexivity.
Defined.

(* ======================================================================= *)
(** * Further properties: the rate limiter                                   *)
(* ======================================================================= *)

(** The run of the rate limiter in any world. *)
Lemma checkRateLimit_run w senderHash st :
  let table := rate_limits_table (db st) in
  let now := clock w in
  let tr1 := trace st ++ [Query (SelectRateLimit senderHash)] in
  let write (stmt : Stmt) (table' : gmap string rate_limits.row) : Res bool * St :=
    match d1_error w stmt with
    | Some msg => (Throw msg, mkSt (db st) (tr1 ++ [Query stmt]))
    | None => (Ok true, mkSt (mkDb table' (sends_table (db st))) (tr1 ++ [Query stmt]))
    end in
  checkRateLimit w senderHash st =
  match d1_error w (SelectRateLimit senderHash) with
  | Some msg => (Throw msg, mkSt (db st) tr1)
  | None =>
      match table !! senderHash with
      | None =>
          write (InsertRateLimit senderHash)
                (<[senderHash := rate_limits.mk 1 now]> table)
      | Some record =>
          if rate_limits.window_start record <? now - 24 * 3600 then
            write (ResetRateLimit senderHash)
                  (<[senderHash := rate_limits.mk 1 now]> table)
          else if rate_limits.send_count record <? 5 then
            write (IncrementRateLimit senderHash)
                  (<[senderHash := rate_limits.mk (rate_limits.send_count record + 1)
                                                  (rate_limits.window_start record)]> table)
          else (Ok false, mkSt (db st) tr1)
      end
  end.
Proof.
  cbv zeta. unfold checkRateLimit, d1_first, d1_run. unfold_monad.
  destruct st as [[table rows] tr]. cbn [db trace rate_limits_table sends_table].
  destruct (d1_error w (SelectRateLimit senderHash)) as [msg|]; [reflexivity|].
  cbn [db trace rate_limits_table sends_table].
  change (RATE_LIMIT_WINDOW_HOURS * 3600) with (24 * 3600).
  change MAX_SENDS_PER_WINDOW with 5.
  destruct (table !! senderHash) as [record|] eqn:Hrec.
  - destruct (rate_limits.window_start record <? clock w - 24 * 3600).
    + destruct (d1_error w (ResetRateLimit senderHash)); cbn;
        rewrite ?(alter_present _ _ _ _ Hrec); reflexivity.
    + destruct (rate_limits.send_count record <? 5); [|reflexivity].
      destruct (d1_error w (IncrementRateLimit senderHash)); cbn;
        rewrite ?(alter_present _ _ _ _ Hrec); reflexivity.
  - destruct (d1_error w (InsertRateLimit senderHash)); cbn; rewrite ?Hrec; reflexivity.
Qed.

(** X6. In any world, the rate limiter touches nothing but the record of
    the sender it is called for: the records of the other senders and the
    audit log are what they were. *)
Theorem checkRateLimit_isolation (w : World) (senderHash other : string) (st : St) :
  other <> senderHash ->
  rate_limits_table (db (snd (checkRateLimit w senderHash st))) !! other
    = rate_limits_table (db st) !! other
  /\ sends_table (db (snd (checkRateLimit w senderHash st))) = sends_table (db st).
Proof.
  intros Hne. rewrite checkRateLimit_run. cbv zeta.
  destruct (d1_error w (SelectRateLimit senderHash)); [split; reflexivity|].
  destruct (rate_limits_table (db st) !! senderHash) as [record|];
    [destruct (_ <? _); [|destruct (_ <? _)]|];
    try (split; reflexivity);
    destruct (d1_error w _); cbn [snd db rate_limits_table sends_table];
    rewrite ?lookup_insert_ne by congruence; split; reflexivity.
Qed.

Lemma checkRateLimit_isolation_witness :
  "sha256:someone-else" <> "sha256:unique-anonymous-token-123"
  /\ rate_limits_table
       (db (snd (checkRateLimit sampleWorld "sha256:unique-anonymous-token-123"
                                cappedState)))
     !! "sha256:someone-else"
     = rate_limits_table (db cappedState) !! "sha256:someone-else".
Proof.
  split; [discriminate|].
  apply (checkRateLimit_isolation sampleWorld "sha256:unique-anonymous-token-123"
           "sha256:someone-else" cappedState).
  discriminate.
Defined.

(** X7. In any world, a call of the rate limiter that does not allow,
    because it denies or because D1 refuses a statement, leaves the
    database as it was; a call that allows leaves the sender with a record
    in its current window whose count is at most 5, and is either 1 (a new
    or restarted window) or one more than before in the same window. *)
Theorem checkRateLimit_all_or_nothing (w : World) (senderHash : string) (st : St) :
  (fst (checkRateLimit w senderHash st) <> Ok true ->
   db (snd (checkRateLimit w senderHash st)) = db st)
  /\ (fst (checkRateLimit w senderHash st) = Ok true ->
      exists record,
        rate_limits_table (db (snd (checkRateLimit w senderHash st))) !! senderHash
          = Some record
        /\ clock w - 24 * 3600 <= rate_limits.window_start record
        /\ rate_limits.send_count record <= 5
        /\ (rate_limits.send_count record = 1
            \/ exists before,
                 rate_limits_table (db st) !! senderHash = Some before
                 /\ rate_limits.send_count record = rate_limits.send_count before + 1
                 /\ rate_limits.window_start record = rate_limits.window_start before)).
Proof.
  rewrite checkRateLimit_run. cbv zeta.
  destruct (d1_error w (SelectRateLimit senderHash)); [split; [reflexivity|discriminate]|].
  destruct (rate_limits_table (db st) !! senderHash) as [record|] eqn:Hrec.
  - destruct (Z.ltb_spec (rate_limits.window_start record) (clock w - 24 * 3600)).
    + destruct (d1_error w _); (split; [intros Hres; try reflexivity; now destruct Hres
                                       | intros Hres; try discriminate]).
      cbn [snd db rate_limits_table]. rewrite lookup_insert_eq.
      eexists; split; [reflexivity|]. cbn. repeat split; lia.
    + destruct (Z.ltb_spec (rate_limits.send_count record) 5).
      * destruct (d1_error w _); (split; [intros Hres; try reflexivity; now destruct Hres
                                         | intros Hres; try discriminate]).
        cbn [snd db rate_limits_table]. rewrite lookup_insert_eq.
        eexists; split; [reflexivity|]. cbn. repeat split; try lia.
        right. exists record. auto.
      * split; [reflexivity | discriminate].
  - destruct (d1_error w _); (split; [intros Hres; try reflexivity; now destruct Hres
                                     | intros Hres; try discriminate]).
    cbn [snd db rate_limits_table]. rewrite lookup_insert_eq.
    eexists; split; [reflexivity|]. cbn. repeat split; lia.
Qed.

Lemma checkRateLimit_all_or_nothing_witness :
  fst (checkRateLimit sampleWorld "sha256:unique-anonymous-token-123" cappedState)
    <> Ok true
  /\ db (snd (checkRateLimit sampleWorld "sha256:unique-anonymous-token-123" cappedState))
     = db cappedState.
Proof.
  split; [vm_compute; discriminate|].
  apply (checkRateLimit_all_or_nothing sampleWorld "sha256:unique-anonymous-token-123"
           cappedState).
  vm_compute; discriminate.
Defined.

Lemma checkRateLimitEach_in_window worlds : forall senderHash st record,
  rate_limits_table (db st) !! senderHash = Some record ->
  Forall (fun w => healthy w
                   /\ clock w - 24 * 3600 <= rate_limits.window_start record) worlds ->
  fst (checkRateLimitEach worlds senderHash st)
  = map (fun i => Ok (rate_limits.send_count record + Z.of_nat i <? 5))
        (seq 0 (length worlds)).
Proof.
  induction worlds as [|w rest IH]; intros senderHash st record Hrec Hall; [reflexivity|].
  inversion Hall as [|? ? [Hup Hwin] Hrest]; subst.
  cbn [checkRateLimitEach length seq map].
  rewrite checkRateLimit_run. cbv zeta. rewrite Hup, Hrec.
  destruct (Z.ltb_spec (rate_limits.window_start record) (clock w - 24 * 3600)); [lia|].
  rewrite Z.add_0_r.
  destruct (Z.ltb_spec (rate_limits.send_count record) 5) as [Hlt|Hge].
  - rewrite Hup.
    match goal with |- context [checkRateLimitEach rest senderHash ?s] => set (st1 := s) end.
    specialize (IH senderHash st1
                   (rate_limits.mk (rate_limits.send_count record + 1)
                                   (rate_limits.window_start record))).
    destruct (checkRateLimitEach rest senderHash st1) as [rs st2].
    cbn [fst] in *. rewrite IH.
    + f_equal. rewrite <- seq_shift, map_map. apply map_ext. intros i.
      cbn [rate_limits.send_count]. do 2 f_equal. lia.
    + subst st1. cbn. apply lookup_insert_eq.
    + exact Hrest.
  - specialize (IH senderHash
                   (mkSt (db st) (trace st ++ [Query (SelectRateLimit senderHash)]))
                   record Hrec Hrest).
    destruct (checkRateLimitEach rest senderHash _) as [rs st2].
    cbn [fst] in *. rewrite IH. f_equal.
    rewrite <- seq_shift, map_map. apply map_ext. intros i.
    f_equal. destruct (Z.ltb_spec (rate_limits.send_count record + Z.of_nat i) 5);
      destruct (Z.ltb_spec (rate_limits.send_count record + Z.of_nat (S i)) 5);
      try reflexivity; lia.
Qed.

(** X8. The cap over a window.  For a sender without record, when D1
    executes the statements and every later call comes within 24 hours of
    the first, the first five calls are allowed and every further call is
    denied. *)
Theorem checkRateLimit_five_per_window (first : World) (later : list World)
    (senderHash : string) (st : St) :
  rate_limits_table (db st) !! senderHash = None ->
  healthy first ->
  Forall (fun w => healthy w /\ clock w - 24 * 3600 <= clock first) later ->
  fst (checkRateLimitEach (first :: later) senderHash st)
  = map (fun i => Ok (i <? 5)%nat) (seq 0 (S (length later))).
Proof.
  intros Hnone Hup Hall.
  cbn [checkRateLimitEach length seq map].
  rewrite checkRateLimit_run. cbv zeta. rewrite !Hup, Hnone.
  match goal with |- context [checkRateLimitEach later senderHash ?s] => set (st1 := s) end.
  pose proof (checkRateLimitEach_in_window later senderHash st1
                (rate_limits.mk 1 (clock first))) as Hin.
  destruct (checkRateLimitEach later senderHash st1) as [rs st2].
  cbn [fst] in *. rewrite Hin.
  - f_equal. rewrite <- seq_shift, map_map. apply map_ext. intros i.
    cbn [rate_limits.send_count]. f_equal.
    destruct (Z.ltb_spec (1 + Z.of_nat i) 5); destruct (Nat.ltb_spec (S i) 5);
      try reflexivity; lia.
  - subst st1. cbn. apply lookup_insert_eq.
  - exact Hall.
Qed.

Lemma checkRateLimit_five_per_window_witness :
  rate_limits_table (db emptyState) !! "sha256:unique-anonymous-token-123" = None
  /\ healthy sampleWorld
  /\ fst (checkRateLimitEach
            [sampleWorld; sampleWorld; sampleWorld; sampleWorld; sampleWorld;
             sampleWorld; sampleWorld]
            "sha256:unique-anonymous-token-123" emptyState)
     = [Ok true; Ok true; Ok true; Ok true; Ok true; Ok false; Ok false].
Proof.
  split; [reflexivity|]. split; [intros s; reflexivity|].
  apply (checkRateLimit_five_per_window sampleWorld
           [sampleWorld; sampleWorld; sampleWorld; sampleWorld; sampleWorld; sampleWorld]
           "sha256:unique-anonymous-token-123" emptyState).
  - reflexivity.
  - intros s; reflexivity.
  - repeat constructor; try (intros s; reflexivity); vm_compute; discriminate.
Defined.

(* ======================================================================= *)
(** * Further properties: escaping                                           *)
(* ======================================================================= *)

Lemma entityOf_shape c :
  (c <> "&"%char /\ entityOf c = String c EmptyString)
  \/ (c = "&"%char /\ entityOf c = "&amp;")
  \/ (c = "<"%char /\ entityOf c = "&lt;")
  \/ (c = ">"%char /\ entityOf c = "&gt;")
  \/ (c = dquote /\ entityOf c = "&quot;")
  \/ (c = "'"%char /\ entityOf c = "&#39;").
Proof.
  destruct c as [[] [] [] [] [] [] [] []];
    first [ left; split; [discriminate | reflexivity]
          | right; left; split; reflexivity
          | right; right; left; split; reflexivity
          | right; right; right; left; split; reflexivity
          | right; right; right; right; left; split; reflexivity
          | right; right; right; right; right; split; reflexivity ].
Qed.

(** X9. Escaping loses nothing: two texts with the same escaped form are
    the same text. *)
Theorem escapeHtml_injective (text1 text2 : string) :
  escapeHtml text1 = escapeHtml text2 -> text1 = text2.
Proof.
  revert text2. induction text1 as [|c1 t1 IH]; intros [|c2 t2].
  - reflexivity.
  - rewrite escapeHtml_cons.
    destruct (entityOf_shape c2) as [[_ ->]|[[_ ->]|[[_ ->]|[[_ ->]|[[_ ->]|[_ ->]]]]]];
      discriminate.
  - rewrite escapeHtml_cons.
    destruct (entityOf_shape c1) as [[_ ->]|[[_ ->]|[[_ ->]|[[_ ->]|[[_ ->]|[_ ->]]]]]];
      discriminate.
  - rewrite !escapeHtml_cons. intros H.
    assert (c1 = c2 /\ escapeHtml t1 = escapeHtml t2) as [-> Ht].
    { destruct (entityOf_shape c1) as [[N1 E1]|[[N1 E1]|[[N1 E1]|[[N1 E1]|[[N1 E1]|[N1 E1]]]]]];
        destruct (entityOf_shape c2) as [[N2 E2]|[[N2 E2]|[[N2 E2]|[[N2 E2]|[[N2 E2]|[N2 E2]]]]]];
        rewrite E1, E2 in H; simpl in H; subst;
        try discriminate H;
        try (injection H; intros; subst; split; congruence). }
    now rewrite (IH _ Ht).
Qed.

Lemma escapeHtml_injective_witness :
  escapeHtml "a < b" = escapeHtml "a < b" /\ "a < b" = "a < b".
Proof.
  split; [reflexivity|].
  apply (escapeHtml_injective "a < b" "a < b"). reflexivity.
Defined.

(** X10. Escaping works character by character: it distributes over
    concatenation, and it returns a text that has none of the five
    characters unchanged. *)
Theorem escapeHtml_app_and_plain (text1 text2 : string) :
  escapeHtml (text1 +:+ text2) = escapeHtml text1 +:+ escapeHtml text2
  /\ (allChars (fun c => negb (htmlSpecial c)) text1 = true ->
      escapeHtml text1 = text1).
Proof.
  split.
  - induction text1 as [|c t IH]; [reflexivity|].
    change (String c t +:+ text2) with (String c (t +:+ text2)).
    now rewrite !escapeHtml_cons, IH, append_assoc.
  - induction text1 as [|c t IH]; [reflexivity|].
    simpl allChars. intros [Hc Ht]%andb_true_iff.
    unfold escapeHtml in *. cbn [replaceClass].
    apply negb_true_iff in Hc. rewrite Hc. now rewrite IH.
Qed.

Lemma escapeHtml_app_and_plain_witness :
  allChars (fun c => negb (htmlSpecial c)) "Thank you" = true
  /\ escapeHtml "Thank you" = "Thank you".
Proof.
  split; [reflexivity|].
  apply (escapeHtml_app_and_plain "Thank you" EmptyString). reflexivity.
Defined.

(* ======================================================================= *)
(** * Further properties: the handler                                        *)
(* ======================================================================= *)

Lemma geminiCalls_app tr1 tr2 : geminiCalls (tr1 ++ tr2) = geminiCalls tr1 ++ geminiCalls tr2.
Proof. apply omap_app. Qed.

Lemma resendCalls_app tr1 tr2 : resendCalls (tr1 ++ tr2) = resendCalls tr1 ++ resendCalls tr2.
Proof. apply omap_app. Qed.

Lemma geminiCalls_map_Query qs : geminiCalls (map Query qs) = [].
Proof. induction qs as [|q qs IH]; [reflexivity|]. exact IH. Qed.

Lemma resendCalls_map_Query qs : resendCalls (map Query qs) = [].
Proof. induction qs as [|q qs IH]; [reflexivity|]. exact IH. Qed.

(** The run of the handler on a request that is not a validated
    [POST /send]. *)
Lemma fetch_not_validated_response w request st :
  validated request = None ->
  exists response,
    fetch w request st = (Ok response, st)
    /\ (response = preflightResponse
        \/ response = notFoundResponse
        \/ exists reason, response = errorResponse validation_error reason 400).
Proof.
  unfold validated, fetch, pipeline. unfold_monad.
  destruct (String.eqb (method request) "OPTIONS"); [eauto|].
  destruct (String.eqb (method request) "POST"); [|eauto].
  destruct (String.eqb (pathname request) "/send"); [|eauto].
  cbn [negb orb andb].
  destruct (json_body request) as [body|]; [|eauto 6].
  destruct (validateRequest body) as [data'|f]; [discriminate|eauto 6].
Qed.

(** The rate limiter only appends statements to the trace, and leaves the
    audit log as it is. *)
Lemma checkRateLimit_trace w senderHash st :
  exists res table' qs,
    checkRateLimit w senderHash st
    = (res, mkSt (mkDb table' (sends_table (db st))) (trace st ++ map Query qs))
    /\ (res <> Ok true -> table' = rate_limits_table (db st)).
Proof.
  rewrite checkRateLimit_run. cbv zeta. destruct st as [[table rows] tr].
  cbn [db trace rate_limits_table sends_table].
  destruct (d1_error w (SelectRateLimit senderHash)) as [msg|].
  { exists (Throw msg), table, [SelectRateLimit senderHash]. split; reflexivity. }
  destruct (table !! senderHash) as [record|];
    [destruct (_ <? _); [|destruct (_ <? _)]|];
    try (exists (Ok false), table, [SelectRateLimit senderHash]; split; reflexivity);
    match goal with
    | |- context [d1_error w ?s] =>
        destruct (d1_error w s) as [msg|];
        [ exists (Throw msg), table, [SelectRateLimit senderHash; s]
        | eexists (Ok true), _, [SelectRateLimit senderHash; s] ]
    end;
    (split; [rewrite <- app_assoc; reflexivity | intros H; try reflexivity; now destruct H]).
Qed.

(** X11. The response contract.  The handler answers every request, and
    its answer is one of: 204 without body; 404 with the text Not Found; a
    JSON body with its status (200 for success, 400 for a validation error
    or a rejected message, 429 for a rate-limited sender, 500 for a server
    error), the JSON content type and the header that allows any
    origin. *)
Theorem fetch_response_contract (w : World) (request : Request) (st : St) :
  exists response st',
    fetch w request st = (Ok response, st') /\ inContract response.
Proof.
  destruct (validated request) as [data|] eqn:Hv.
  - rewrite (fetch_validated _ _ _ _ Hv), process_shape. cbv zeta.
    destruct (checkRateLimit _ _ _) as [[[|]|msg] st2];
      [destruct (filterVerdict _); [destruct (delivered _)|] | |];
      eexists _, _; (split; [reflexivity|]);
      unfold inContract; simpl; auto 10.
  - destruct (fetch_not_validated_response w request st Hv)
      as (response & Hrun & [->|[->|[reason ->]]]);
      eexists _, st; (split; [exact Hrun|]); unfold inContract; simpl; auto 10.
Qed.

(** X12. Outbound calls, by outcome.  A request that is not validated, or
    that is rate limited, calls neither the classifier nor the e-mail
    service.  A validated request calls the classifier at most once, with
    its trimmed message, and the e-mail service at most once, with the
    e-mail built for its recipient, tag and message; the e-mail service is
    called only when the classifier was called and the verdict was allow,
    and the response is success exactly when that call succeeded. *)
Theorem fetch_outbound_calls (w : World) (request : Request) (st : St) :
  exists response st' events,
    fetch w request st = (Ok response, st')
    /\ trace st' = trace st ++ events
    /\ match validated request with
       | None => geminiCalls events = [] /\ resendCalls events = []
       | Some data =>
           let mail := emailFor (recipient_email data) (context_tag data) (message data) in
           match body response with
           | BodyJson SuccessResponse =>
               geminiCalls events = [message data] /\ resendCalls events = [mail]
               /\ filterVerdict (gemini w (message data)) = true
               /\ delivered (resend w mail) = true
           | BodyJson (ErrorResponse message_rejected _) =>
               geminiCalls events = [message data] /\ resendCalls events = []
               /\ filterVerdict (gemini w (message data)) = false
           | BodyJson (ErrorResponse rate_limited _) =>
               geminiCalls events = [] /\ resendCalls events = []
           | BodyJson (ErrorResponse server_error _) =>
               (geminiCalls events = [message data] /\ resendCalls events = [mail]
                /\ filterVerdict (gemini w (message data)) = true
                /\ delivered (resend w mail) = false)
               \/ (geminiCalls events = [] /\ resendCalls events = [])
           | _ => False
           end
       end.
Proof.
  destruct (validated request) as [data|] eqn:Hv.
  2: { destruct (fetch_not_validated_response w request st Hv) as (response & Hrun & _).
       exists response, st, []. rewrite app_nil_r. repeat split; auto. }
  rewrite (fetch_validated _ _ _ _ Hv), process_shape. cbv zeta.
  destruct (checkRateLimit_trace w (sha256_hex w (sender_token data))
              (mkSt (db st) (trace st ++ [Digest (sender_token data)])))
    as (res & table' & qs & -> & _).
  cbn [db trace].
  destruct res as [[|]|msg];
    [destruct (filterVerdict _) eqn:Hverdict; [destruct (delivered _) eqn:Hsent|] | |];
    rewrite ?logSend_run; cbn [db trace snd fst];
    (eexists _, _, _; split; [reflexivity|]);
    cbn [db trace body errorResponse jsonResponse];
    rewrite <- ?app_assoc;
    (split; [reflexivity|]);
    rewrite ?geminiCalls_app, ?resendCalls_app, ?geminiCalls_map_Query,
            ?resendCalls_map_Query;
    cbn; auto 10.
Qed.

Lemma checkRateLimit_withAuditErrors w f senderHash st :
  checkRateLimit (withAuditErrors w f) senderHash st = checkRateLimit w senderHash st.
Proof. rewrite !checkRateLimit_run. reflexivity. Qed.

Lemma checkRateLimit_withServices w g r senderHash st :
  checkRateLimit (withServices w g r) senderHash st = checkRateLimit w senderHash st.
Proof. rewrite !checkRateLimit_run. reflexivity. Qed.

(** X13. The audit log is best effort: whatever D1 answers to the insert
    into the audit log, the response of the handler and the rate-limit
    table it leaves are the same. *)
Theorem fetch_unaffected_by_audit_errors (w : World) (f : Stmt -> option string)
    (request : Request) (st : St) :
  fst (fetch (withAuditErrors w f) request st) = fst (fetch w request st)
  /\ rate_limits_table (db (snd (fetch (withAuditErrors w f) request st)))
     = rate_limits_table (db (snd (fetch w request st))).
Proof.
  destruct (validated request) as [data|] eqn:Hv.
  - rewrite !(fetch_validated _ _ _ _ Hv), !process_shape. cbv zeta.
    cbn [sha256_hex withAuditErrors gemini resend].
    rewrite checkRateLimit_withAuditErrors.
    change (gemini (withAuditErrors w f)) with (gemini w).
    change (resend (withAuditErrors w f)) with (resend w).
    destruct (checkRateLimit _ _ _) as [[[|]|msg] st2];
      [destruct (filterVerdict _); [destruct (delivered _)|] | |];
      rewrite ?logSend_run; split; reflexivity.
  - unfold fetch, pipeline. unfold_monad.
    unfold validated in Hv.
    destruct (String.eqb (method request) "OPTIONS"); [split; reflexivity|].
    destruct (String.eqb (method request) "POST"); [|split; reflexivity].
    destruct (String.eqb (pathname request) "/send"); [|split; reflexivity].
    cbn [negb orb andb] in *.
    destruct (json_body request) as [body|]; [|split; reflexivity].
    destruct (validateRequest body); [discriminate|split; reflexivity].
Qed.

(** X14. A send is counted whatever becomes of it: the rate-limit table
    that a request leaves does not depend on the classifier nor on the
    e-mail service, so a message that is rejected, or whose delivery
    fails, counts against the limit like a delivered one. *)
Theorem rate_limit_counts_every_attempt (w : World) (g : string -> FetchResult)
    (r : Email -> FetchResult) (request : Request) (st : St) :
  rate_limits_table (db (snd (fetch (withServices w g r) request st)))
  = rate_limits_table (db (snd (fetch w request st))).
Proof.
  destruct (validated request) as [data|] eqn:Hv.
  - rewrite !(fetch_validated _ _ _ _ Hv), !process_shape. cbv zeta.
    cbn [sha256_hex withServices gemini resend].
    rewrite checkRateLimit_withServices.
    destruct (checkRateLimit _ _ _) as [[[|]|msg] st2]; [| |reflexivity].
    + destruct (filterVerdict (g _)); [destruct (delivered (r _))|];
        (destruct (filterVerdict (gemini w _)); [destruct (delivered (resend w _))|]);
        rewrite !logSend_run; reflexivity.
    + rewrite !logSend_run. reflexivity.
  - destruct (fetch_not_validated_response (withServices w g r) request st Hv)
      as (r1 & -> & _).
    destruct (fetch_not_validated_response w request st Hv) as (r2 & -> & _).
    reflexivity.
Qed.

(** X15. When D1 refuses a statement of the rate limiter, a validated
    request is answered 500 with the message of D1 in the reason; the
    database is left as it was, and neither the classifier nor the e-mail
    service is called. *)
Theorem fetch_rate_limiter_failure (w : World) (request : Request) (st : St)
    (data : SendRequest) (msg : string) :
  validated request = Some data ->
  fst (checkRateLimit w (sha256_hex w (sender_token data))
         (mkSt (db st) (trace st ++ [Digest (sender_token data)]))) = Throw msg ->
  fst (fetch w request st)
    = Ok (errorResponse server_error ("An unexpected error occurred: " +:+ msg) 500)
  /\ db (snd (fetch w request st)) = db st
  /\ geminiCalls (trace (snd (fetch w request st))) = geminiCalls (trace st)
  /\ resendCalls (trace (snd (fetch w request st))) = resendCalls (trace st).
Proof.
  intros Hv Hthrow.
  rewrite (fetch_validated _ _ _ _ Hv), process_shape. cbv zeta.
  destruct (checkRateLimit_trace w (sha256_hex w (sender_token data))
              (mkSt (db st) (trace st ++ [Digest (sender_token data)])))
    as (res & table' & qs & Hrun & Hsame).
  rewrite Hrun in *. cbn [fst] in Hthrow. subst res.
  rewrite Hsame by discriminate. cbn [fst snd db trace sends_table rate_limits_table].
  rewrite !geminiCalls_app, !resendCalls_app, geminiCalls_map_Query, resendCalls_map_Query.
  cbn. rewrite !app_nil_r. destruct st as [[table rows] tr]. repeat split.
Qed.

Lemma fetch_rate_limiter_failure_witness :
  validated (postSend (sampleBody "Thank you for everything."))
    = Some (mkSendRequest "Thank you for everything." "recipient@example.com"
                          mentor "unique-anonymous-token-123")
  /\ fst (fetch rateLimitDownWorld (postSend (sampleBody "Thank you for everything."))
                emptyState)
     = Ok (errorResponse server_error
             ("An unexpected error occurred: "
              +:+ "D1_ERROR: no such table: rate_limits") 500).
Proof.
  split; [vm_compute; reflexivity|].
  refine (proj1 (fetch_rate_limiter_failure rateLimitDownWorld
                   (postSend (sampleBody "Thank you for everything.")) emptyState
                   (mkSendRequest "Thank you for everything." "recipient@example.com"
                                  mentor "unique-anonymous-token-123")
                   "D1_ERROR: no such table: rate_limits" _ _));
    vm_compute; reflexivity.
Defined.

(** X16. [sendEmail] always resolves, submits the e-mail once and leaves
    the database as it is; it resolves to true exactly when the e-mail
    service answers with a body that can be read and a status from 200 to
    299, and to false when the call throws, when the body of the answer
    cannot be read, or when the status is another one. *)
Theorem sendEmail_outcome (w : World) (recipientEmail : string)
    (contextTag : ContextTag) (message : string) (st : St) :
  let mail := emailFor recipientEmail contextTag message in
  exists sent,
    sendEmail w recipientEmail contextTag message st
      = (Ok sent, mkSt (db st) (trace st ++ [CallResend mail]))
    /\ (sent = true <->
        exists status parsed,
          resend w mail = Reply status parsed /\ 200 <= status <= 299)
    /\ (forall e, resend w mail = NetworkError e -> sent = false)
    /\ (forall status, resend w mail = Unreadable status -> sent = false).
Proof.
  cbv zeta. eexists. split; [apply sendEmail_run|].
  unfold delivered, ok. destruct (resend w _) as [e|status parsed|status].
  - split; [split; [discriminate | intros (? & ? & [=] & _)] | split; intros; reflexivity].
  - split; [|split; intros; discriminate].
    rewrite andb_true_iff, !Z.leb_le. split.
    + intros [? ?]. exists status, parsed. auto.
    + intros (s & p & [= <- <-] & ? & ?). lia.
  - split; [split; [discriminate | intros (? & ? & [=] & _)] | split; intros; reflexivity].
Qed.

(** A 2xx answer whose body cannot be read is a failed delivery. *)
Example sendEmail_unreadable_body :
  fst (sendEmail (withServices sampleWorld (gemini sampleWorld) (fun _ => Unreadable 200))
                 "recipient@example.com" mentor "Thank you" emptyState)
  = Ok false.
Proof. vm_compute. reflexivity. Qed.



(* ======================================================================= *)
(** * Further properties: the rendering of the digest                        *)
(* ======================================================================= *)

Lemma hexOfBytes_cons b l :
  hexOfBytes (b :: l)
  = padStart 2 "0" (toString16 (Strings.Byte.to_N b)) +:+ hexOfBytes l.
Proof.
  unfold hexOfBytes, join. destruct l as [|b' l]; cbn [map String.concat].
  - now rewrite append_nil_r.
  - reflexivity.
Qed.

Lemma bytesOfHex_byte b t :
  bytesOfHex (padStart 2 "0" (toString16 (Strings.Byte.to_N b)) +:+ t)
  = option_map (cons b) (bytesOfHex t).
Proof. destruct b; reflexivity. Qed.

Lemma hexByte_shape b :
  String.length (padStart 2 "0" (toString16 (Strings.Byte.to_N b))) = 2%nat
  /\ allChars isHexDigit
              (padStart 2 "0" (toString16 (Strings.Byte.to_N b))) = true.
Proof. destruct b; split; reflexivity. Qed.

Lemma length_append (s1 s2 : string) :
  String.length (s1 +:+ s2) = (String.length s1 + String.length s2)%nat.
Proof. induction s1 as [|c s1 IH]; simpl; [reflexivity | now rewrite IH]. Qed.

(** X18. The rendering of the digest in [hashString] writes every byte as
    two lower-case hexadecimal digits, in order: the identifier of a
    digest of [n] bytes has [2 n] characters, all of them hexadecimal
    digits, and the bytes can be read back from it, so that different
    digests give different identifiers. *)
Theorem hexOfBytes_round_trip (hashArray : list Byte.byte) :
  bytesOfHex (hexOfBytes hashArray) = Some hashArray
  /\ String.length (hexOfBytes hashArray) = (2 * length hashArray)%nat
  /\ allChars isHexDigit (hexOfBytes hashArray) = true
  /\ (forall other, hexOfBytes other = hexOfBytes hashArray -> other = hashArray).
Proof.
  assert (Hrt : forall l, bytesOfHex (hexOfBytes l) = Some l).
  { induction l as [|b l IH]; [reflexivity|].
    now rewrite hexOfBytes_cons, bytesOfHex_byte, IH. }
  repeat split.
  - apply Hrt.
  - induction hashArray as [|b l IH]; [reflexivity|].
    rewrite hexOfBytes_cons, length_append, IH, (proj1 (hexByte_shape b)).
    cbn [length]. lia.
  - induction hashArray as [|b l IH]; [reflexivity|].
    now rewrite hexOfBytes_cons, allChars_app, IH, (proj2 (hexByte_shape b)).
  - intros other Heq. pose proof (Hrt other) as Ho. rewrite Heq, Hrt in Ho. congruence.
Qed.

Lemma hexOfBytes_round_trip_witness :
  hexOfBytes [Byte.x00; Byte.x0a; Byte.xff] = "000aff"
  /\ bytesOfHex "000aff" = Some [Byte.x00; Byte.x0a; Byte.xff].
Proof.
  split; [reflexivity|].
  apply (hexOfBytes_round_trip [Byte.x00; Byte.x0a; Byte.xff]).
Defined.

(** One request of a sender whose record is in its current window, when D1
    executes the statements: the answer is 429 exactly when the count has
    reached 5, and the count is incremented otherwise. *)
Lemma fetch_in_window w request data st record :
  validated request = Some data ->
  healthy w ->
  rate_limits_table (db st) !! sha256_hex w (sender_token data) = Some record ->
  clock w - 24 * 3600 <= rate_limits.window_start record ->
  isRateLimited (fst (fetch w request st)) = negb (rate_limits.send_count record <? 5)
  /\ rate_limits_table (db (snd (fetch w request st))) !! sha256_hex w (sender_token data)
     = Some (if rate_limits.send_count record <? 5
             then rate_limits.mk (rate_limits.send_count record + 1)
                                 (rate_limits.window_start record)
             else record).
Proof.
  intros Hv Hup Hrec Hwin.
  rewrite (fetch_validated _ _ _ _ Hv), process_shape. cbv zeta.
  rewrite checkRateLimit_run. cbv zeta. cbn [db trace]. rewrite Hup, Hrec.
  destruct (Z.ltb_spec (rate_limits.window_start record) (clock w - 24 * 3600)); [lia|].
  destruct (rate_limits.send_count record <? 5).
  - rewrite Hup.
    destruct (filterVerdict _); [destruct (delivered _)|];
      rewrite logSend_run; cbn; rewrite lookup_insert_eq; split; reflexivity.
  - rewrite logSend_run. cbn. rewrite Hrec. split; reflexivity.
Qed.

Lemma fetchEach_in_window requests : forall senderHash st record,
  rate_limits_table (db st) !! senderHash = Some record ->
  Forall (fun wr => fromSender senderHash wr
                    /\ healthy (fst wr)
                    /\ clock (fst wr) - 24 * 3600 <= rate_limits.window_start record)
         requests ->
  map isRateLimited (fst (fetchEach requests st))
  = map (fun i => negb (rate_limits.send_count record + Z.of_nat i <? 5))
        (seq 0 (length requests)).
Proof.
  induction requests as [|[w request] rest IH]; intros senderHash st record Hrec Hall;
    [reflexivity|].
  inversion Hall as [|? ? ((data & Hv & Hsha) & Hup & Hwin) Hrest]; subst.
  cbn [fst snd] in *. cbn [fetchEach length seq map].
  pose proof (fetch_in_window w request data st record Hv Hup Hrec Hwin) as [Hres Htab].
  destruct (fetch w request st) as [r st1]. cbn [fst snd] in Hres, Htab.
  specialize (IH (sha256_hex w (sender_token data)) st1 _ Htab).
  destruct (fetchEach rest st1) as [rs st2]. cbn [fst map] in *.
  rewrite Hres, Z.add_0_r. f_equal.
  rewrite IH.
  - rewrite <- seq_shift, map_map. apply map_ext. intros i. f_equal.
    destruct (Z.ltb_spec (rate_limits.send_count record) 5); cbn [rate_limits.send_count].
    + f_equal. lia.
    + destruct (Z.ltb_spec (rate_limits.send_count record + Z.of_nat i) 5);
        destruct (Z.ltb_spec (rate_limits.send_count record + Z.of_nat (S i)) 5);
        try reflexivity; lia.
  - destruct (rate_limits.send_count record <? 5); exact Hrest.
Qed.

(** X19. The cap, seen by a client.  For a sender without record, when D1
    executes the statements and every later request comes within 24 hours
    of the first, the first five valid requests of the sender, whatever
    their messages, recipients and tags, are not answered 429, and every
    further one is, whatever the classifier and the e-mail service did
    with the earlier ones. *)
Theorem fetch_sixth_is_rate_limited (first : World * Request)
    (later : list (World * Request)) (senderHash : string) (st : St) :
  fromSender senderHash first ->
  rate_limits_table (db st) !! senderHash = None ->
  healthy (fst first) ->
  Forall (fun wr => fromSender senderHash wr
                    /\ healthy (fst wr)
                    /\ clock (fst wr) - 24 * 3600 <= clock (fst first)) later ->
  map isRateLimited (fst (fetchEach (first :: later) st))
  = map (fun i => negb (i <? 5)%nat) (seq 0 (S (length later))).
Proof.
  destruct first as [w request]. cbn [fst snd].
  intros (data & Hv & Hsha) Hnone Hup Hall. cbn [fst snd] in Hv, Hsha. subst senderHash.
  cbn [fetchEach length seq map].
  assert (Hfirst :
    isRateLimited (fst (fetch w request st)) = false
    /\ rate_limits_table (db (snd (fetch w request st)))
         !! sha256_hex w (sender_token data)
       = Some (rate_limits.mk 1 (clock w))).
  { rewrite (fetch_validated _ _ _ _ Hv), process_shape. cbv zeta.
    rewrite checkRateLimit_run. cbv zeta. cbn [db trace]. rewrite !Hup, Hnone.
    destruct (filterVerdict _); [destruct (delivered _)|];
      rewrite logSend_run; cbn; rewrite lookup_insert_eq; split; reflexivity. }
  destruct Hfirst as [Hres Htab].
  destruct (fetch w request st) as [r st1]. cbn [fst snd] in Hres, Htab.
  pose proof (fetchEach_in_window later _ st1 _ Htab Hall) as Hin.
  destruct (fetchEach later st1) as [rs st2]. cbn [fst map] in *.
  rewrite Hres, Hin. f_equal.
  rewrite <- seq_shift, map_map. apply map_ext. intros i.
  cbn [rate_limits.send_count]. f_equal.
  destruct (Z.ltb_spec (1 + Z.of_nat i) 5); destruct (Nat.ltb_spec (S i) 5);
    try reflexivity; lia.
Qed.


Lemma fetch_sixth_is_rate_limited_witness :
  map isRateLimited (fst (fetchEach sixRequests emptyState))
  = [false; false; false; false; false; true].
Proof.
  apply (fetch_sixth_is_rate_limited (hd (sampleWorld, postSend JNull) sixRequests)
           (tl sixRequests) "sha256:token-1" emptyState).
  - eexists. split; vm_compute; reflexivity.
  - vm_compute; reflexivity.
  - intros s; reflexivity.
  - repeat constructor;
      try (eexists; split; vm_compute; reflexivity);
      try (intros s; reflexivity);
      vm_compute; discriminate.
Defined.
